(** * lagproxy: a latency-injecting TCP relay

    Shallow embedding of [lagproxy.py] and the properties of its
    forwarding pipe, its delay policy, its accept loop and its
    command-line handling.

    Conventions of the embedding.

    - Seconds are Python's [float]: IEEE 754 binary64 with round to
      nearest even, as [spec_float] with its executable operations, so
      rounding, overflow, infinities and NaN are those of the program.
    - Byte strings are [list byte]; the empty list is the falsy [b''].
    - [None] is Python's [None]; an object without [__bool__] and
      [__len__] (a [Delay]) is truthy.
    - The threads of one pipe are interleaved one library call at a time;
      what the environment answers to a call ([recv], [send],
      [random.random], [time.time], a [time.sleep], [start] or [log]
      that raises) is carried by the label of the step.
    - [time.time()] reads the wall clock, which may stand at any value
      at any moment; how long a [time.sleep] really lasts is not
      modelled, only that it has returned before the next statement.
    - [queue.Queue] is the unbounded first-in first-out queue of the
      standard library: a list and the count of unfinished tasks.
    - [PipeThread.pipes] is followed for one pipe: the entries of other
      pipes stay as they were when this one was made.
    - A [log] call of a thread or of the accept loop is a call that
      returns or raises; what it prints is modelled with [main] only. *)

From Stdlib Require Import List String Ascii Strings.Byte ZArith Lia Bool.
From Stdlib Require Import SpecFloat Decimal DecimalZ.
Import ListNotations.

(** * Part I: the program *)

(** ** Seconds *)

Definition fadd : spec_float -> spec_float -> spec_float := SFadd 53 1024.
Definition fsub : spec_float -> spec_float -> spec_float := SFsub 53 1024.
Definition fmul : spec_float -> spec_float -> spec_float := SFmul 53 1024.
Definition fdiv : spec_float -> spec_float -> spec_float := SFdiv 53 1024.

(** Python's [==], [<] and [<=] on floats: false whenever a NaN is
    involved. *)
Definition feq : spec_float -> spec_float -> bool := SFeqb.
Definition flt : spec_float -> spec_float -> bool := SFltb.
Definition fle : spec_float -> spec_float -> bool := SFleb.

(** The float nearest to an integer. *)
Definition of_Z (z : Z) : spec_float := binary_normalize 53 1024 z 0 false.

(** The float written [m]e[e]: exact integers, and decimals whose digits
    and power of ten are exact floats, are rounded once, as Python
    rounds its literals. *)
Definition dec (m e : Z) : spec_float :=
  match e with
  | Zneg p => fdiv (of_Z m) (of_Z (10 ^ Zpos p))
  | _ => of_Z (m * 10 ^ e)
  end.

Definition float_of_number (n : Number.number) : option spec_float :=
  match n with
  | Number.Decimal (Decimal.Decimal i f) =>
      Some (dec (Z.of_int (Decimal.app_int i f))
                (- Z.of_nat (Decimal.nb_digits f)))
  | Number.Decimal (Decimal.DecimalExp i f e) =>
      Some (dec (Z.of_int (Decimal.app_int i f))
                (Z.of_int e - Z.of_nat (Decimal.nb_digits f)))
  | _ => None
  end.

Definition number_of_float (x : spec_float) : option Number.number := None.

Declare Scope float_scope.
Delimit Scope float_scope with float.
Number Notation spec_float float_of_number number_of_float : float_scope.
Open Scope float_scope.



(** [max(0, x)] as the sender evaluates it: the builtin keeps its first
    argument unless a later one is strictly greater; a NaN never is. *)
Definition max0 (x : spec_float) : spec_float := if flt 0 x then x else 0.

(** ** [class Delay] *)

Module Delay.

Record t : Type := mk { minseconds : spec_float; maxseconds : spec_float }.

(** Truth value of the constructor's [maxseconds] argument: [None]
    and a zero are falsy, every other float is truthy, a NaN too. *)
Definition truthy (maxseconds : option spec_float) : bool :=
  match maxseconds with
  | None => false
  | Some m => negb (feq m 0)
  end.

(** [maxseconds < minseconds]; the [or] reaches it only when
    [maxseconds] is truthy, so never on [None]. *)
Definition inverted (minseconds : spec_float) (maxseconds : option spec_float)
  : bool :=
  match maxseconds with
  | None => false
  | Some m => flt m minseconds
  end.

(** [Delay.__init__] *)
Definition init (minseconds : spec_float) (maxseconds : option spec_float) : t :=
  let maxseconds' :=
    if negb (truthy maxseconds) || inverted minseconds maxseconds
    then minseconds
    else match maxseconds with Some m => m | None => minseconds end in
  mk minseconds maxseconds'.

(** [random.uniform(a, b)] is [a + (b - a) * random()], the draw
    [random()] lying in the half-open interval from 0 to 1. *)
Definition uniform (a b draw : spec_float) : spec_float :=
  fadd a (fmul (fsub b a) draw).

Definition draw_ok (draw : spec_float) : bool := fle 0 draw && flt draw 1.

(** [Delay.getrandom], given the draw of [random.random()]. *)
Definition getrandom (self : t) (draw : spec_float) : spec_float :=
  uniform (minseconds self) (maxseconds self) draw.

End Delay.

(** ** [class BackloggedData] *)

Record BackloggedData : Type :=
  { waituntil : spec_float; payload : list byte }.

(** [BackloggedData.__init__]: [now] is what [time.time()] returns and
    [draw] what [random.random()] returns inside [getrandom].  A [Delay]
    object is truthy, so [if delay] tests for [None]. *)
Definition BackloggedData_init
    (payload : list byte) (delay : option Delay.t) (now draw : spec_float)
    : BackloggedData :=
  match delay with
  | Some d => {| waituntil := fadd now (Delay.getrandom d draw); payload := payload |}
  | None => {| waituntil := now; payload := payload |}
  end.

(** ** One pipe: [PipeThread] and its [PipeCleanerThread] *)

(** A queued [BackloggedData] together with three history stamps that
    the program never reads: what [time.time()] read when [recv]
    returned its bytes, what it read in the constructor, and the draw of
    [random.random()] handed to the constructor (looked at only under a
    [Delay]). *)
Record chunk : Type :=
  { readat : spec_float; builtat : spec_float; drawn : spec_float;
    data : BackloggedData }.

(** What [self.source.recv(1024)] does: return bytes ([b''] at end of
    stream) or raise. *)
Inductive recv_result : Type :=
| RecvBytes (b : list byte)
| RecvError.

(** What [self.pipe.sink.send(payload)] does: return the number of bytes
    it took, which the caller discards, or raise. *)
Inductive send_result : Type :=
| SendCount (n : nat)
| SendError.

(** One call of [sink.send], for the history. *)
Record send_event : Type :=
  { sent : chunk; sentat : spec_float; result : send_result }.

(** One call of [time.sleep] that has returned, for the history: the
    entry it was made for, what [time.time()] read in its argument, and
    the argument. *)
Record sleep_event : Type :=
  { slept : chunk; glanced : spec_float; asked : spec_float }.

(** Bytes of a payload that one [send] call put on the wire. *)
Definition wired (c : chunk) (r : send_result) : list byte :=
  match r with
  | SendCount n => firstn n (payload (data c))
  | SendError => []
  end.

Module PipeCleanerThread.

(** Program points of [PipeCleanerThread.run]. *)
Inductive pc : Type :=
| NotStarted
| Get                           (* in [backlog.get(block=True)] *)
| SleepArg (c : chunk)          (* about to evaluate [max(0, waituntil - time.time())] *)
| Sleep (c : chunk) (secs : spec_float)    (* about to call [time.sleep(secs)] *)
| Sleeping (c : chunk) (secs : spec_float) (* inside [time.sleep(secs)] *)
| Send (c : chunk)              (* about to call [sink.send(data.payload)] *)
| TaskDone (c : chunk)          (* about to call [backlog.task_done()] *)
| Dead                          (* [send] or [task_done] raised and the exception left [run] *)
| SleepFailed (c : chunk).      (* [time.sleep] raised and the exception left [run] *)

(** The entry the thread has taken from the queue and not handed to
    [send]. *)
Definition holding (p : pc) : list chunk :=
  match p with
  | SleepArg c | Sleep c _ | Sleeping c _ | Send c | SleepFailed c => [c]
  | NotStarted | Get | TaskDone _ | Dead => []
  end.

End PipeCleanerThread.

Module PipeThread.

(** Program points of [PipeThread.run]. *)
Inductive pc : Type :=
| Start                          (* about to start the cleaner thread *)
| Recv                           (* about to call [source.recv(1024)] *)
| Got (t : spec_float) (bytes : list byte) (* non-empty read at [t]; about to build the entry *)
| Put (c : chunk)                (* about to call [backlog.put] *)
| Terminating                    (* loop left; about to call [log('%s terminating')] *)
| Join                           (* in [backlog.join()] *)
| Remove                         (* about to call [pipes.remove(self)] *)
| Removed                        (* about to call [log('%s pipes active')] *)
| Done                           (* [run] has returned *)
| StartFailed                    (* [cleanerthread.start()] could not start a thread *)
| LogFailed                      (* the [log] before [join] raised *)
| LastLogFailed                  (* the [log] after [pipes.remove] raised *)
| Crashed.                       (* [start()] on a started thread, or [remove] of a missing pipe, raised *)

(** Bytes read from the source that are not yet in the queue. *)
Definition in_hand (p : pc) : list byte :=
  match p with
  | Got _ b => b
  | Put c => payload (data c)
  | _ => []
  end.

End PipeThread.

(** [list.remove(x)]: drop the first occurrence, [None] for the
    [ValueError] raised when there is none. *)
Fixpoint list_remove (x : nat) (l : list nat) : option (list nat) :=
  match l with
  | [] => None
  | y :: l' =>
      if Nat.eqb x y then Some l'
      else match list_remove x l' with
           | Some r => Some (y :: r)
           | None => None
           end
  end.

Module Pipe.

Record state : Type := mk
  { clock : spec_float;              (* what [time.time()] reads *)
    reader : PipeThread.pc;
    sender : PipeCleanerThread.pc;
    backlog : list chunk;            (* [self.backlog], head first *)
    unfinished_tasks : nat;          (* the queue's count for [join] *)
    pipes : list nat;                (* [PipeThread.pipes], by thread id *)
    sink : list byte;                (* bytes the sink socket took *)
    looked : spec_float;             (* [time.time()] in the sender's last sleep argument *)
    (* history *)
    recvd : list byte;               (* bytes the source socket gave *)
    enqueued : list chunk;           (* every [put], oldest first *)
    dequeued : list chunk;           (* every [get], oldest first *)
    sends : list send_event;         (* every [send], oldest first *)
    sleeps : list sleep_event }.     (* every [time.sleep] that returned *)

Inductive label : Type :=
| Tick (now : spec_float)                        (* the wall clock now reads [now] *)
| StepReader (rv : recv_result) (draw : spec_float) (* [PipeThread.run] makes its next call *)
| StepSender (sr : send_result)                  (* [PipeCleanerThread.run] makes its next call *)
| SleepRaises                                    (* the [time.sleep] the sender is about to call raises *)
| ReaderRaises.                                  (* the [start()] or [log] the reader is about to call raises *)

Section Run.

(** [self.delay] and the identity of the [PipeThread]. *)
Variable delay : option Delay.t.
Variable self : nat.

(** [PipeThread.__init__], run when the clock reads [now], with
    [others] already registered. *)
Definition init (now : spec_float) (others : list nat) : state :=
  {| clock := now;
     reader := PipeThread.Start;
     sender := PipeCleanerThread.NotStarted;
     backlog := [];
     unfinished_tasks := 0;
     pipes := others ++ [self];
     sink := [];
     looked := now;
     recvd := [];
     enqueued := [];
     dequeued := [];
     sends := [];
     sleeps := [] |}.

(** [random.random()] is called only when there is a [Delay]; its
    draw then lies in the half-open unit interval. *)
Definition draw_used (draw : spec_float) : bool :=
  match delay with
  | Some _ => Delay.draw_ok draw
  | None => true
  end.

(** [recv(1024)] returns at most 1024 bytes. *)
Definition recv_ok (rv : recv_result) : bool :=
  match rv with
  | RecvBytes b => (List.length b <=? 1024)%nat
  | RecvError => true
  end.

(** [send] takes at least one byte of a non-empty buffer and never
    more than the buffer holds. *)
Definition send_ok (p : list byte) (sr : send_result) : bool :=
  match sr with
  | SendCount n => ((Nat.min 1 (List.length p) <=? n) && (n <=? List.length p))%nat
  | SendError => true
  end.

(** [PipeThread.run], one library call at a time. *)
Definition PipeThread_run (rv : recv_result) (draw : spec_float) (s : state)
  : option state :=
  match reader s with
  | PipeThread.Start =>
      (* self.cleanerthread.start(); a thread can be started only once *)
      match sender s with
      | PipeCleanerThread.NotStarted =>
          Some (mk (clock s) PipeThread.Recv PipeCleanerThread.Get
                   (backlog s) (unfinished_tasks s) (pipes s) (sink s) (looked s)
                   (recvd s) (enqueued s) (dequeued s) (sends s) (sleeps s))
      | _ =>
          Some (mk (clock s) PipeThread.Crashed (sender s)
                   (backlog s) (unfinished_tasks s) (pipes s) (sink s) (looked s)
                   (recvd s) (enqueued s) (dequeued s) (sends s) (sleeps s))
      end
  | PipeThread.Recv =>
      if recv_ok rv then
        match rv with
        | RecvBytes [] | RecvError =>
            (* if not bytes: break        except: break *)
            Some (mk (clock s) PipeThread.Terminating (sender s)
                     (backlog s) (unfinished_tasks s) (pipes s) (sink s) (looked s)
                     (recvd s) (enqueued s) (dequeued s) (sends s) (sleeps s))
        | RecvBytes b =>
            Some (mk (clock s) (PipeThread.Got (clock s) b) (sender s)
                     (backlog s) (unfinished_tasks s) (pipes s) (sink s) (looked s)
                     (recvd s ++ b) (enqueued s) (dequeued s) (sends s) (sleeps s))
        end
      else None
  | PipeThread.Got t b =>
      (* BackloggedData(bytes, self.delay) *)
      if draw_used draw then
        let c := {| readat := t; builtat := clock s; drawn := draw;
                    data := BackloggedData_init b delay (clock s) draw |} in
        Some (mk (clock s) (PipeThread.Put c) (sender s)
                 (backlog s) (unfinished_tasks s) (pipes s) (sink s) (looked s)
                 (recvd s) (enqueued s) (dequeued s) (sends s) (sleeps s))
      else None
  | PipeThread.Put c =>
      (* self.backlog.put(..., block=True) on an unbounded queue *)
      Some (mk (clock s) PipeThread.Recv (sender s)
               (backlog s ++ [c]) (S (unfinished_tasks s)) (pipes s) (sink s) (looked s)
               (recvd s) (enqueued s ++ [c]) (dequeued s) (sends s) (sleeps s))
  | PipeThread.Terminating =>
      (* log('%s terminating' % self) returns *)
      Some (mk (clock s) PipeThread.Join (sender s)
               (backlog s) (unfinished_tasks s) (pipes s) (sink s) (looked s)
               (recvd s) (enqueued s) (dequeued s) (sends s) (sleeps s))
  | PipeThread.Join =>
      (* self.backlog.join() returns once no task is unfinished *)
      match unfinished_tasks s with
      | O => Some (mk (clock s) PipeThread.Remove (sender s)
                    (backlog s) (unfinished_tasks s) (pipes s) (sink s) (looked s)
                    (recvd s) (enqueued s) (dequeued s) (sends s) (sleeps s))
      | S _ => None
      end
  | PipeThread.Remove =>
      (* PipeThread.pipes.remove(self) *)
      match list_remove self (pipes s) with
      | Some ps =>
          Some (mk (clock s) PipeThread.Removed (sender s)
                   (backlog s) (unfinished_tasks s) ps (sink s) (looked s)
                   (recvd s) (enqueued s) (dequeued s) (sends s) (sleeps s))
      | None =>
          Some (mk (clock s) PipeThread.Crashed (sender s)
                   (backlog s) (unfinished_tasks s) (pipes s) (sink s) (looked s)
                   (recvd s) (enqueued s) (dequeued s) (sends s) (sleeps s))
      end
  | PipeThread.Removed =>
      (* log('%s pipes active' % len(PipeThread.pipes)) returns *)
      Some (mk (clock s) PipeThread.Done (sender s)
               (backlog s) (unfinished_tasks s) (pipes s) (sink s) (looked s)
               (recvd s) (enqueued s) (dequeued s) (sends s) (sleeps s))
  | PipeThread.Done | PipeThread.StartFailed | PipeThread.LogFailed
  | PipeThread.LastLogFailed | PipeThread.Crashed => None
  end.

(** A call of the reader that its environment can make fail raises, and
    nothing in [run] catches it: [cleanerthread.start()] when no thread
    can be started, and the two [log] calls outside the loop. *)
Definition reader_raises (s : state) : option state :=
  let dies (p : PipeThread.pc) :=
    Some (mk (clock s) p (sender s)
             (backlog s) (unfinished_tasks s) (pipes s) (sink s) (looked s)
             (recvd s) (enqueued s) (dequeued s) (sends s) (sleeps s)) in
  match reader s with
  | PipeThread.Start => dies PipeThread.StartFailed
  | PipeThread.Terminating => dies PipeThread.LogFailed
  | PipeThread.Removed => dies PipeThread.LastLogFailed
  | _ => None
  end.

(** [PipeCleanerThread.run], one library call at a time. *)
Definition PipeCleanerThread_run (sr : send_result) (s : state) : option state :=
  match sender s with
  | PipeCleanerThread.NotStarted | PipeCleanerThread.Dead
  | PipeCleanerThread.SleepFailed _ => None
  | PipeCleanerThread.Get =>
      (* data = self.pipe.backlog.get(block=True) *)
      match backlog s with
      | [] => None
      | c :: q =>
          Some (mk (clock s) (reader s) (PipeCleanerThread.SleepArg c)
                   q (unfinished_tasks s) (pipes s) (sink s) (looked s)
                   (recvd s) (enqueued s) (dequeued s ++ [c]) (sends s) (sleeps s))
      end
  | PipeCleanerThread.SleepArg c =>
      (* max(0, data.waituntil - time.time()) *)
      let secs := max0 (fsub (waituntil (data c)) (clock s)) in
      Some (mk (clock s) (reader s) (PipeCleanerThread.Sleep c secs)
               (backlog s) (unfinished_tasks s) (pipes s) (sink s) (clock s)
               (recvd s) (enqueued s) (dequeued s) (sends s) (sleeps s))
  | PipeCleanerThread.Sleep c secs =>
      (* time.sleep(secs) is entered *)
      Some (mk (clock s) (reader s) (PipeCleanerThread.Sleeping c secs)
               (backlog s) (unfinished_tasks s) (pipes s) (sink s) (looked s)
               (recvd s) (enqueued s) (dequeued s) (sends s) (sleeps s))
  | PipeCleanerThread.Sleeping c secs =>
      (* time.sleep(secs) returns *)
      let ev := {| slept := c; glanced := looked s; asked := secs |} in
      Some (mk (clock s) (reader s) (PipeCleanerThread.Send c)
               (backlog s) (unfinished_tasks s) (pipes s) (sink s) (looked s)
               (recvd s) (enqueued s) (dequeued s) (sends s) (sleeps s ++ [ev]))
  | PipeCleanerThread.Send c =>
      (* self.pipe.sink.send(data.payload) *)
      if send_ok (payload (data c)) sr then
        let ev := {| sent := c; sentat := clock s; result := sr |} in
        match sr with
        | SendCount _ =>
            Some (mk (clock s) (reader s) (PipeCleanerThread.TaskDone c)
                     (backlog s) (unfinished_tasks s) (pipes s) (sink s ++ wired c sr) (looked s)
                     (recvd s) (enqueued s) (dequeued s) (sends s ++ [ev]) (sleeps s))
        | SendError =>
            Some (mk (clock s) (reader s) PipeCleanerThread.Dead
                     (backlog s) (unfinished_tasks s) (pipes s) (sink s) (looked s)
                     (recvd s) (enqueued s) (dequeued s) (sends s ++ [ev]) (sleeps s))
        end
      else None
  | PipeCleanerThread.TaskDone c =>
      (* self.pipe.backlog.task_done() *)
      match unfinished_tasks s with
      | O => Some (mk (clock s) (reader s) PipeCleanerThread.Dead
                    (backlog s) (unfinished_tasks s) (pipes s) (sink s) (looked s)
                    (recvd s) (enqueued s) (dequeued s) (sends s) (sleeps s))
      | S n => Some (mk (clock s) (reader s) PipeCleanerThread.Get
                      (backlog s) n (pipes s) (sink s) (looked s)
                      (recvd s) (enqueued s) (dequeued s) (sends s) (sleeps s))
      end
  end.

(** [time.sleep(secs)] raises (an argument too large for the platform's
    clock), and nothing in [run] catches it. *)
Definition sleep_raises (s : state) : option state :=
  match sender s with
  | PipeCleanerThread.Sleep c _ =>
      Some (mk (clock s) (reader s) (PipeCleanerThread.SleepFailed c)
               (backlog s) (unfinished_tasks s) (pipes s) (sink s) (looked s)
               (recvd s) (enqueued s) (dequeued s) (sends s) (sleeps s))
  | _ => None
  end.

Definition step (l : label) (s : state) : option state :=
  match l with
  | Tick now =>
      Some (mk now (reader s) (sender s)
               (backlog s) (unfinished_tasks s) (pipes s) (sink s) (looked s)
               (recvd s) (enqueued s) (dequeued s) (sends s) (sleeps s))
  | StepReader rv draw => PipeThread_run rv draw s
  | StepSender sr => PipeCleanerThread_run sr s
  | SleepRaises => sleep_raises s
  | ReaderRaises => reader_raises s
  end.

(** A schedule: the steps taken, in order. *)
Fixpoint run (ls : list label) (s : state) : option state :=
  match ls with
  | [] => Some s
  | l :: ls' =>
      match step l s with
      | Some s' => run ls' s'
      | None => None
      end
  end.

End Run.

End Pipe.

(** ** [class LagProxy] *)

Module LagProxy.

(** Sockets, by the position of their connection in accept order. *)
Inductive sock : Type :=
| Local (i : nat)     (* [localsock] of the i-th accepted connection *)
| Remote (i : nat).   (* [remotesock] opened for it *)

(** The calls of one round of the loop that can raise, in the order the
    round makes them. *)
Inductive call : Type :=
| Accept           (* [self.sock.accept()] *)
| SessionLog       (* [log('Creating new session ...')] *)
| Socket           (* [socket.socket(...)] *)
| Connect          (* [remotesock.connect(...)] *)
| FirstPeername    (* [getpeername()] and [log] in [PipeThread(localsock, remotesock, ...)],
                      before [pipes.append(self)] *)
| FirstActiveLog   (* the [log] after [pipes.append(self)] *)
| FirstStart       (* its [start()] *)
| SecondPeername   (* [getpeername()] and [log] in [PipeThread(remotesock, localsock, ...)],
                      before [pipes.append(self)] *)
| SecondActiveLog  (* the [log] after [pipes.append(self)] *)
| SecondStart.     (* its [start()] *)

Definition rank (c : call) : nat :=
  match c with
  | Accept => 0 | SessionLog => 1 | Socket => 2 | Connect => 3
  | FirstPeername => 4 | FirstActiveLog => 5 | FirstStart => 6
  | SecondPeername => 7 | SecondActiveLog => 8 | SecondStart => 9
  end.

(** What one round meets: every call returns, or one of them raises. *)
Inductive fate : Type :=
| Served
| Raises (c : call).

(** The call [c] is reached and returns. *)
Definition returns (f : fate) (c : call) : bool :=
  match f with
  | Served => true
  | Raises c' => (rank c <? rank c')%nat
  end.

Record state : Type := mk
  { accepted : list sock;            (* sockets [accept] has returned *)
    registered : list (sock * sock); (* [PipeThread(source, sink)] made and in [PipeThread.pipes] *)
    started : list (sock * sock) }.  (* those whose [start()] has returned *)

Definition init : state :=
  {| accepted := []; registered := []; started := [] |}.

(** How the loop stands once the connections offered so far are used
    up. *)
Inductive outcome : Type :=
| Accepting     (* blocked in [self.sock.accept()] *)
| Raised.       (* an exception left [run] *)

(** [LagProxy.run] against the rounds to come, one [fate] for each, from
    the [i]-th on.  Nothing in [run] catches an exception. *)
Fixpoint run_from (i : nat) (fates : list fate) (s : state)
  : state * outcome :=
  match fates with
  | [] => (s, Accepting)
  | f :: rest =>
      (* localsock, address = self.sock.accept() *)
      if negb (returns f Accept) then (s, Raised) else
      let s1 := mk (accepted s ++ [Local i]) (registered s) (started s) in
      (* log(...); remotesock = socket.socket(...); remotesock.connect(...) *)
      if negb (returns f Connect) then (s1, Raised) else
      (* PipeThread(localsock, remotesock, self.delay), up to
         PipeThread.pipes.append(self) *)
      if negb (returns f FirstPeername) then (s1, Raised) else
      let s2 := mk (accepted s1) (registered s1 ++ [(Local i, Remote i)])
                   (started s1) in
      (* the rest of the constructor, and .start() *)
      if negb (returns f FirstStart) then (s2, Raised) else
      let s3 := mk (accepted s2) (registered s2)
                   (started s2 ++ [(Local i, Remote i)]) in
      (* PipeThread(remotesock, localsock, self.delay), up to
         PipeThread.pipes.append(self) *)
      if negb (returns f SecondPeername) then (s3, Raised) else
      let s4 := mk (accepted s3) (registered s3 ++ [(Remote i, Local i)])
                   (started s3) in
      (* the rest of the constructor, and .start() *)
      if negb (returns f SecondStart) then (s4, Raised) else
      run_from (S i) rest
        (mk (accepted s4) (registered s4)
            (started s4 ++ [(Remote i, Local i)]))
  end.

Definition run (fates : list fate) : state * outcome :=
  run_from 0 fates init.

(** The pipes of the connections [i], [i+1], ... [i+n-1]. *)
Fixpoint pairs_from (i n : nat) : list (sock * sock) :=
  match n with
  | O => []
  | S k => (Local i, Remote i) :: (Remote i, Local i) :: pairs_from (S i) k
  end.

Definition locals_from (i n : nat) : list sock := map Local (seq i n).

End LagProxy.

(** ** [log] and [main] *)

Module Main.

(** Module-level names that are rebound at run time. *)
Record globals : Type := { LOGGING : bool }.

(** [LOGGING = True] at import. *)
Definition module_globals : globals := {| LOGGING := true |}.

(** What is logged; the rendering to text and the time stamp are left
    out. *)
Inductive message : Type :=
| Redirecting (localport : Z) (remotehost : String.string) (remoteport : Z)
              (delay : option Delay.t).

Inductive line : Type :=
| Logged (m : message)
| UsageText.

(** [log(s)]: reads the module-level [LOGGING]. *)
Definition log (g : globals) (m : message) (stdout : list line) : list line :=
  if LOGGING g then stdout ++ [Logged m] else stdout.

(** The names of [main]'s frame that the flag loop touches.  [main]
    assigns [LOGGING] and declares no [global], so the name is local to
    the frame, unbound until the first assignment. *)
Record frame : Type :=
  { args : list String.string; local_LOGGING : option bool }.

(** [args.remove('-q')], called only when ['-q' in args]. *)
Fixpoint remove_first (x : String.string) (l : list String.string)
  : list String.string :=
  match l with
  | [] => []
  | y :: l' => if String.eqb x y then l' else y :: remove_first x l'
  end.

(** [while '-q' in args: LOGGING = False; args.remove('-q')], at most
    [fuel] iterations. *)
Fixpoint flag_loop (fuel : nat) (f : frame) : frame :=
  match fuel with
  | O => f
  | S k =>
      if existsb (String.eqb "-q") (args f)
      then flag_loop k {| args := remove_first "-q" (args f);
                          local_LOGGING := Some false |}
      else f
  end.

Inductive parsed : Type :=
| Usage      (* the [except:] branch: [usage()] and return *)
| Config (localport : Z) (remotehost : String.string) (remoteport : Z)
         (delay : option Delay.t).

Section Builtins.

(** The builtins [int] and [float] on a string, [None] for
    [ValueError]. *)
Variable py_int : String.string -> option Z.
Variable py_float : String.string -> option spec_float.

(** The rest of the [try] block; a missing argument raises
    [IndexError], which the bare [except] catches like any other. *)
Definition positional (args : list String.string) : parsed :=
  match args with
  | a0 :: a1 :: a2 :: rest =>
      match py_int a0, py_int a2 with
      | Some localport, Some remoteport =>
          match rest with
          | [] => Config localport a1 remoteport None
          | a3 :: rest' =>
              match py_float a3 with
              | None => Usage
              | Some delaymin =>
                  match rest' with
                  | [] => Config localport a1 remoteport
                            (Some (Delay.init delaymin None))
                  | a4 :: _ =>
                      match py_float a4 with
                      | None => Usage
                      | Some delaymax =>
                          Config localport a1 remoteport
                            (Some (Delay.init delaymin (Some delaymax)))
                      end
                  end
              end
          end
      | _, _ => Usage
      end
  | _ => Usage
  end.

(** [main()] up to and including [LagProxy.__init__], whose first
    statement logs the redirection.  Returns the module globals and
    the standard output afterwards, and what was parsed. *)
Definition main (g : globals) (argv : list String.string)
    (stdout : list line) : globals * list line * parsed :=
  let f0 := {| args := tl argv; local_LOGGING := None |} in
  let f := flag_loop (List.length (args f0)) f0 in
  match positional (args f) with
  | Usage => (g, stdout ++ [UsageText], Usage)
  | Config localport remotehost remoteport delay =>
      (g,
       log g (Redirecting localport remotehost remoteport delay) stdout,
       Config localport remotehost remoteport delay)
  end.

End Builtins.

(** [int] on a string of plain decimal digits. *)
Definition digit (a : ascii) : option Z :=
  let n := nat_of_ascii a in
  if ((48 <=? n) && (n <=? 57))%nat then Some (Z.of_nat (n - 48)) else None.

Fixpoint digits (acc : Z) (s : String.string) : option Z :=
  match s with
  | EmptyString => Some acc
  | String a s' =>
      match digit a with
      | Some d => digits (10 * acc + d)%Z s'
      | None => None
      end
  end.

Definition int_of_digits (s : String.string) : option Z :=
  match s with
  | EmptyString => None
  | _ => digits 0%Z s
  end.

(** [float] on a string of plain decimal digits. *)
Definition float_of_digits (s : String.string) : option spec_float :=
  match int_of_digits s with
  | Some z => Some (of_Z z)
  | None => None
  end.

End Main.


(** * Part II: what is to be shown *)

(** ** Invariants of a pipe *)

Section PipeInvariants.

Import Pipe.

Variable delay : option Delay.t.
Variable self : nat.

(** What has been put is what has been got followed by what waits. *)
Definition fifo (s : state) : Prop :=
  enqueued s = dequeued s ++ backlog s.

(** What has been got is what has been handed to [send] followed by
    what the sender holds. *)
Definition in_order (s : state) : Prop :=
  dequeued s = map sent (sends s) ++ PipeCleanerThread.holding (sender s).

(** Entries taken from the queue for which [task_done] has not been
    called. *)
Definition owed (p : PipeCleanerThread.pc) : nat :=
  match p with
  | PipeCleanerThread.NotStarted | PipeCleanerThread.Get => 0
  | _ => 1
  end.

(** The queue counts as unfinished what waits and what is owed. *)
Definition tasks (s : state) : Prop :=
  unfinished_tasks s = (List.length (backlog s) + owed (sender s))%nat.

(** Program points of the reader after [backlog.join()] has returned. *)
Definition past_join (p : PipeThread.pc) : bool :=
  match p with
  | PipeThread.Remove | PipeThread.Removed | PipeThread.Done
  | PipeThread.LastLogFailed => true
  | _ => false
  end.

(** Once [join] has returned, no task is unfinished. *)
Definition joined (s : state) : Prop :=
  past_join (reader s) = true -> unfinished_tasks s = 0%nat.

(** The [send] call returned, with whatever count. *)
Definition took (ev : send_event) : bool :=
  match result ev with SendCount _ => true | SendError => false end.

(** While the sender lives, no [send] has raised. *)
Definition sends_ok (s : state) : Prop :=
  sender s <> PipeCleanerThread.Dead -> forallb took (sends s) = true.

(** The payload is truthy. *)
Definition nonempty (c : chunk) : Prop := payload (data c) <> [].

(** Nothing empty is in hand or has ever been put. *)
Definition no_empty (s : state) : Prop :=
  Forall nonempty (enqueued s)
  /\ match reader s with
     | PipeThread.Got _ b => b <> []
     | PipeThread.Put c => nonempty c
     | _ => True
     end.

(** The payloads of the entries, end to end. *)
Definition bytes_of (cs : list chunk) : list byte :=
  List.concat (map (fun c => payload (data c)) cs).

(** The bytes read are the payloads put, in order, then what is in
    hand. *)
Definition read_kept (s : state) : Prop :=
  recvd s = bytes_of (enqueued s) ++ PipeThread.in_hand (reader s).

(** What the [send] calls put on the wire, end to end. *)
Definition wire (evs : list send_event) : list byte :=
  List.concat (map (fun ev => wired (sent ev) (result ev)) evs).

(** The sink has what the [send] calls put on the wire, in order. *)
Definition sink_is_wire (s : state) : Prop := sink s = wire (sends s).

(** The pipe stays registered until [pipes.remove(self)], which finds
    it; and [start()] meets a thread not yet started. *)
Definition registered (others : list nat) (s : state) : Prop :=
  match reader s with
  | PipeThread.Start =>
      sender s = PipeCleanerThread.NotStarted /\ pipes s = others ++ [self]
  | PipeThread.Removed | PipeThread.Done | PipeThread.LastLogFailed =>
      list_remove self (others ++ [self]) = Some (pipes s)
  | PipeThread.Crashed => False
  | _ => pipes s = others ++ [self]
  end.

(** The entry was built by [BackloggedData.__init__] from the clock
    reading [builtat] and, under a [Delay], the draw [drawn]. *)
Definition built_right (c : chunk) : Prop :=
  draw_used delay (drawn c) = true
  /\ data c = BackloggedData_init (payload (data c)) delay (builtat c) (drawn c).

(** Every entry put, and the one about to be, was built right. *)
Definition built (s : state) : Prop :=
  Forall built_right (enqueued s)
  /\ match reader s with
     | PipeThread.Put c => built_right c
     | _ => True
     end.

(** The entry for which the sender's [time.sleep] has returned and whose
    [send] is still to come. *)
Definition rested_for (p : PipeCleanerThread.pc) : list chunk :=
  match p with
  | PipeCleanerThread.Send c => [c]
  | _ => []
  end.

(** The argument of the sleep is [max(0, waituntil - time.time())] for
    the clock reading taken in it. *)
Definition asked_right (e : sleep_event) : Prop :=
  asked e = max0 (fsub (waituntil (data (slept e))) (glanced e)).

(** The sender hands an entry to [send] only after a [time.sleep] made
    for that entry, with the right argument, has returned. *)
Definition rested (s : state) : Prop :=
  map slept (sleeps s) = map sent (sends s) ++ rested_for (sender s)
  /\ Forall asked_right (sleeps s)
  /\ match sender s with
     | PipeCleanerThread.Sleep c secs | PipeCleanerThread.Sleeping c secs =>
         secs = max0 (fsub (waituntil (data c)) (looked s))
     | _ => True
     end.

(** All invariants together. *)
Record sound (others : list nat) (s : state) : Prop :=
  { sound_fifo : fifo s;
    sound_in_order : in_order s;
    sound_tasks : tasks s;
    sound_joined : joined s;
    sound_sends_ok : sends_ok s;
    sound_no_empty : no_empty s;
    sound_read_kept : read_kept s;
    sound_sink_is_wire : sink_is_wire s;
    sound_registered : registered others s;
    sound_built : built s;
    sound_rested : rested s }.

(** The [send] call took its whole buffer, as [sendall] would. *)
Definition whole (ev : send_event) : Prop :=
  result ev = SendCount (List.length (payload (data (sent ev)))).

(** Once [cleanerthread.start()] has returned the sender thread
    exists. *)
Definition started (s : state) : Prop :=
  reader s <> PipeThread.Start -> reader s <> PipeThread.StartFailed ->
  sender s <> PipeCleanerThread.NotStarted.

(** [time.sleep] is about to get a number that is not negative. *)
Definition sleep_arg_fine (s : state) : Prop :=
  match sender s with
  | PipeCleanerThread.Sleep _ secs => fle 0 secs = true
  | _ => True
  end.

(** The payload is one read of [recv(1024)] that was not empty. *)
Definition sized (c : chunk) : Prop :=
  (1 <= List.length (payload (data c)) <= 1024)%nat.

Definition all_sized (s : state) : Prop :=
  Forall sized (enqueued s)
  /\ match reader s with
     | PipeThread.Got _ b => (1 <= List.length b <= 1024)%nat
     | PipeThread.Put c => sized c
     | _ => True
     end.

(** The sender thread is dead only after a [send] that raised. *)
Definition died_sending (s : state) : Prop :=
  sender s = PipeCleanerThread.Dead ->
  exists ev, In ev (sends s) /\ result ev = SendError.

End PipeInvariants.

(** ** Arguments *)

(** An argument other than the quiet flag. *)
Definition not_flag (a : String.string) : bool := negb (String.eqb "-q" a).

(** The arguments [main] reads by position: all but the program name
    and the quiet flags. *)
Definition positionals (argv : list String.string) : list String.string :=
  filter not_flag (tl argv).

(** In every round every call returns. *)
Definition all_served (fates : list LagProxy.fate) : bool :=
  forallb (fun f => match f with
                    | LagProxy.Served => true
                    | LagProxy.Raises _ => false
                    end) fates.

(** Every pipe joins the two sockets of one accepted connection, was
    made before it was started, and the one from the remote side is
    started only after the one from the local side. *)
Definition paired (s : LagProxy.state) : Prop :=
  forall a b, In (a, b) (LagProxy.started s) ->
    In (a, b) (LagProxy.registered s)
    /\ exists i, In (LagProxy.Local i) (LagProxy.accepted s)
         /\ ((a, b) = (LagProxy.Local i, LagProxy.Remote i)
             \/ ((a, b) = (LagProxy.Remote i, LagProxy.Local i)
                 /\ In (LagProxy.Local i, LagProxy.Remote i)
                       (LagProxy.started s))).

(** ** Sample schedules *)

(** A pipe with a delay between 0.1 and 1 second relays [a] then [b]:
    the first entry draws nearly the whole range, the second none of it,
    so the second is due first.  The source then ends, the sender works
    the queue off and the reader unregisters. *)
Definition sample_delay : option Delay.t := Some (Delay.init 0.1 (Some 1)).

Definition sample_schedule : list Pipe.label :=
  let reader := Pipe.StepReader RecvError 0 in
  let sender := Pipe.StepSender (SendCount 1) in
  [ reader;                                      (* start the sender *)
    Pipe.StepReader (RecvBytes [x61]) 0;         (* recv gives a *)
    Pipe.StepReader RecvError 0.99;              (* build, due at 0.991 *)
    reader;                                      (* put *)
    Pipe.StepReader (RecvBytes [x62]) 0;         (* recv gives b *)
    Pipe.StepReader RecvError 0;                 (* build, due at 0.1 *)
    reader;                                      (* put *)
    Pipe.StepReader (RecvBytes []) 0;            (* end of stream *)
    reader;                                      (* log *)
    sender; sender; sender;                      (* get a, sleep *)
    Pipe.Tick 1;
    sender; sender; sender;                      (* wake, send a, task_done *)
    sender; sender; sender; sender;              (* get b, no sleep *)
    sender; sender;                              (* send b, task_done *)
    reader; reader; reader ].                    (* join, remove, log *)

Definition sample_final : Pipe.state :=
  Eval vm_compute in
    match Pipe.run sample_delay 7 sample_schedule (Pipe.init 7 0 [3%nat; 4%nat]) with
    | Some s => s
    | None => Pipe.init 7 0 [3%nat; 4%nat]
    end.



(** A pipe without delay reads two bytes at once; the sink takes one of
    them. *)
Definition short_schedule : list Pipe.label :=
  let reader := Pipe.StepReader RecvError 0 in
  let sender := Pipe.StepSender (SendCount 1) in
  [ reader;                                      (* start the sender *)
    Pipe.StepReader (RecvBytes [x61; x62]) 0;    (* recv gives ab *)
    reader; reader;                              (* build, put *)
    Pipe.StepReader (RecvBytes []) 0;            (* end of stream *)
    reader;                                      (* log *)
    sender; sender; sender; sender;              (* get, no sleep *)
    Pipe.StepSender (SendCount 1);               (* send returns 1 *)
    sender;                                      (* task_done *)
    reader; reader; reader ].                    (* join, remove, log *)

Definition short_final : Pipe.state :=
  Eval vm_compute in
    match Pipe.run None 7 short_schedule (Pipe.init 7 0 []) with
    | Some s => s
    | None => Pipe.init 7 0 []
    end.

(** A pipe whose delay is fixed at minus one second: the entry is due
    before it was built, and the sender is about to call [time.sleep]. *)
Definition overdue_schedule : list Pipe.label :=
  [ Pipe.StepReader RecvError 0;
    Pipe.StepReader (RecvBytes [x61]) 0;
    Pipe.StepReader RecvError 0;
    Pipe.StepReader RecvError 0;
    Pipe.StepSender SendError;
    Pipe.StepSender SendError ].

Definition overdue_state : Pipe.state :=
  Eval vm_compute in
    match Pipe.run (Some (Delay.init (-1) None)) 7 overdue_schedule
            (Pipe.init 7 0 []) with
    | Some s => s
    | None => Pipe.init 7 0 []
    end.

(** A pipe whose sink raises on the first [send]; the source then ends. *)
Definition broken_schedule : list Pipe.label :=
  [ Pipe.StepReader RecvError 0;
    Pipe.StepReader (RecvBytes [x61]) 0;
    Pipe.StepReader RecvError 0;
    Pipe.StepReader RecvError 0;
    Pipe.StepSender SendError; Pipe.StepSender SendError;
    Pipe.StepSender SendError; Pipe.StepSender SendError;
    Pipe.StepSender SendError;                   (* send raises *)
    Pipe.StepReader (RecvBytes []) 0;            (* end of stream *)
    Pipe.StepReader RecvError 0 ].               (* log *)

Definition broken_state : Pipe.state :=
  Eval vm_compute in
    match Pipe.run None 7 broken_schedule (Pipe.init 7 0 [3%nat]) with
    | Some s => s
    | None => Pipe.init 7 0 [3%nat]
    end.





(** The short schedule up to the [send]: the sender is about to call
    [task_done]. *)
Definition marking_state : Pipe.state :=
  Eval vm_compute in
    match Pipe.run None 7 (firstn 11 short_schedule) (Pipe.init 7 0 []) with
    | Some s => s
    | None => Pipe.init 7 0 []
    end.

(** The short schedule up to [task_done]: the reader is in
    [backlog.join()] and no task is unfinished. *)
Definition drained_state : Pipe.state :=
  Eval vm_compute in
    match Pipe.run None 7 (firstn 12 short_schedule) (Pipe.init 7 0 []) with
    | Some s => s
    | None => Pipe.init 7 0 []
    end.

(** * Part III: proofs *)

(** ** Seconds *)

Lemma flt_fle (x y : spec_float) : flt x y = true -> fle x y = true.
Proof.
  unfold flt, fle, SFltb, SFleb.
  destruct (SFcompare x y) as [[| |]|]; intro H; congruence.
Qed.

Lemma max0_nonneg (x : spec_float) : fle 0 (max0 x) = true.
Proof.
  unfold max0. destruct (flt 0 x) eqn:E; [now apply flt_fle | reflexivity].
Qed.

Lemma max0_not_negative (x : spec_float) : flt (max0 x) 0 = false.
Proof.
  unfold max0. destruct (flt 0 x) eqn:E; [|reflexivity].
  unfold flt, SFltb in *. cbv [dec of_Z binary_normalize Z.mul Z.pow Z.pow_pos
    Pos.iter] in *.
  destruct x as [sx | sx | | sx mx ex]; simpl in *; try discriminate;
    destruct sx; try discriminate; reflexivity.
Qed.









(** ** The delay policy *)

Section DelayFacts.

Import Delay.


Lemma init_unset (m : spec_float) : maxseconds (init m None) = m.
Proof. reflexivity. Qed.

Lemma init_collapsed (m M : spec_float) :
  feq M 0 = true \/ flt M m = true -> maxseconds (init m (Some M)) = m.
Proof.
  unfold init, truthy, inverted. cbn [maxseconds].
  intros [H | H]; rewrite H; [reflexivity|].
  destruct (feq M 0); reflexivity.
Qed.

Lemma init_kept (m M : spec_float) :
  feq M 0 = false -> flt M m = false -> maxseconds (init m (Some M)) = M.
Proof.
  unfold init, truthy, inverted. cbn [maxseconds].
  intros -> ->. reflexivity.
Qed.












End DelayFacts.

Arguments max0 : simpl never.
Arguments fadd : simpl never.
Arguments fsub : simpl never.
Arguments fmul : simpl never.
Arguments flt : simpl never.
Arguments fle : simpl never.
Arguments feq : simpl never.

(** ** The pipe *)

Section PipeFacts.

Import Pipe.

Variable delay : option Delay.t.
Variable self : nat.

Local Abbreviation step := (step delay self).
Local Abbreviation run := (run delay self).
Local Abbreviation init := (init self).

(** Case analysis on one step: every enabled transition, with the
    fields of both states laid open. *)
Ltac step_cases H :=
  unfold Pipe.step, PipeThread_run, PipeCleanerThread_run, sleep_raises,
    reader_raises in H;
  simpl in H;
  repeat match type of H with
         | context [match ?x with _ => _ end] => destruct x eqn:?; simpl in H
         end;
  try discriminate; inversion H; subst; clear H; simpl in *.

(** A property that holds initially and is kept by every step holds
    after every schedule. *)
Lemma run_invariant (P : state -> Prop) :
  (forall l s s', P s -> step l s = Some s' -> P s') ->
  forall ls s s', P s -> run ls s = Some s' -> P s'.
Proof.
  intros Hstep ls. induction ls as [|l ls IH]; simpl; intros s s' Hs Hrun.
  - now inversion Hrun; subst.
  - destruct (step l s) as [s1|] eqn:E; [|discriminate].
    eapply IH; [|exact Hrun]. eapply Hstep; eauto.
Qed.

Lemma run_app (l1 l2 : list label) (s : state) :
  run (l1 ++ l2) s =
  match run l1 s with Some s1 => run l2 s1 | None => None end.
Proof.
  revert s. induction l1 as [|l l1 IH]; simpl; intro s; [reflexivity|].
  destruct (step l s); [apply IH | reflexivity].
Qed.

(** *** Order *)

Lemma fifo_step l s s' : fifo s -> step l s = Some s' -> fifo s'.
Proof.
  unfold fifo. destruct s; simpl. intros I H. step_cases H;
    rewrite ?I, <- ?app_assoc; reflexivity.
Qed.

Lemma in_order_step l s s' : in_order s -> step l s = Some s' -> in_order s'.
Proof.
  unfold in_order. destruct s; simpl. intros I H. step_cases H;
    rewrite ?I, ?map_app, ?app_nil_r, <- ?app_assoc; simpl; reflexivity.
Qed.

(** *** Unfinished tasks *)

Lemma tasks_step l s s' : tasks s -> step l s = Some s' -> tasks s'.
Proof.
  unfold tasks. destruct s; simpl. intros I H. step_cases H;
    rewrite ?length_app in *; simpl in *; lia.
Qed.

Lemma joined_step l s s' : joined s -> step l s = Some s' -> joined s'.
Proof.
  unfold joined. destruct s; simpl. intros I H. step_cases H;
    intro P; try discriminate; try reflexivity; auto;
    try (specialize (I P); discriminate).
Qed.

Lemma sends_ok_step l s s' : sends_ok s -> step l s = Some s' -> sends_ok s'.
Proof.
  unfold sends_ok. destruct s; simpl. intros I H. step_cases H;
    intro P; try congruence; try (apply I; congruence).
  rewrite forallb_app. simpl. rewrite I by congruence. reflexivity.
Qed.

(** *** Payloads *)

Lemma payload_init b now draw :
  payload (BackloggedData_init b delay now draw) = b.
Proof. unfold BackloggedData_init. destruct delay; reflexivity. Qed.

Lemma no_empty_step l s s' : no_empty s -> step l s = Some s' -> no_empty s'.
Proof.
  unfold no_empty, nonempty. destruct s; simpl. intros [I J] H. step_cases H;
    try (split; [assumption | first [exact Logic.I | discriminate | assumption]]).
  - split; [assumption|]. simpl. now rewrite payload_init.
  - split; [|exact Logic.I]. apply Forall_app. split; [assumption|].
    constructor; [assumption | constructor].
Qed.

Lemma bytes_of_app cs ds : bytes_of (cs ++ ds) = bytes_of cs ++ bytes_of ds.
Proof. unfold bytes_of. now rewrite map_app, concat_app. Qed.

Lemma read_kept_step l s s' : read_kept s -> step l s = Some s' -> read_kept s'.
Proof.
  unfold read_kept. destruct s; simpl. intros I H. step_cases H;
    rewrite ?I, ?payload_init, ?bytes_of_app, ?app_nil_r, <- ?app_assoc;
    unfold bytes_of; simpl; rewrite ?app_nil_r; reflexivity.
Qed.

Lemma wire_app es fs : wire (es ++ fs) = wire es ++ wire fs.
Proof. unfold wire. now rewrite map_app, concat_app. Qed.

Lemma sink_is_wire_step l s s' :
  sink_is_wire s -> step l s = Some s' -> sink_is_wire s'.
Proof.
  unfold sink_is_wire. destruct s; simpl. intros I H. step_cases H;
    rewrite ?I, ?wire_app; unfold wire; simpl; rewrite ?app_nil_r; reflexivity.
Qed.

(** *** The registry *)

Lemma list_remove_last (others : list nat) :
  list_remove self (others ++ [self]) <> None.
Proof.
  induction others as [|y others IH]; simpl.
  - rewrite Nat.eqb_refl. discriminate.
  - destruct (Nat.eqb self y); [discriminate|].
    destruct (list_remove self (others ++ [self])); [discriminate | contradiction].
Qed.

Lemma registered_step others l s s' :
  registered self others s -> step l s = Some s' -> registered self others s'.
Proof.
  unfold registered. destruct s; simpl. intros I H.
  destruct reader0 eqn:R; step_cases H; try assumption; try tauto;
    try (destruct I; congruence); try congruence.
  exfalso. eapply list_remove_last. eassumption.
Qed.

(** *** Release times *)

Lemma built_step l s s' : built delay s -> step l s = Some s' -> built delay s'.
Proof.
  unfold built. destruct s; simpl. intros [I J] H.
  destruct reader0 eqn:R; step_cases H;
    try (split; [assumption | first [exact Logic.I | assumption]]).
  - split; [assumption|]. split; [simpl; assumption|].
    simpl. now rewrite payload_init.
  - split; [|exact Logic.I]. apply Forall_app. split; [assumption|].
    constructor; [assumption | constructor].
Qed.

Lemma rested_step l s s' : rested s -> step l s = Some s' -> rested s'.
Proof.
  unfold rested, asked_right. destruct s; simpl. intros (I & J & K) H.
  destruct sender0 eqn:R; step_cases H;
    try (repeat split; first [assumption | exact Logic.I | reflexivity]).
  - split; [|split; [|exact Logic.I]].
    + rewrite map_app, I, app_nil_r. reflexivity.
    + apply Forall_app. split; [assumption|].
      constructor; [simpl; first [assumption | reflexivity] | constructor].
  - split; [|split; [assumption | exact Logic.I]].
    rewrite map_app, I, app_nil_r. reflexivity.
  - split; [|split; [assumption | exact Logic.I]].
    rewrite map_app, I, app_nil_r. reflexivity.
Qed.

(** *** All of it, for every reachable state *)

Lemma sound_init now others : sound delay self others (init now others).
Proof.
  constructor; try reflexivity.
  - intro. reflexivity.
  - intro. reflexivity.
  - split; [constructor | exact I].
  - split; reflexivity.
  - split; [constructor | exact I].
  - split; [reflexivity | split; [constructor | exact I]].
Qed.

Lemma sound_step others l s s' :
  sound delay self others s -> step l s = Some s' -> sound delay self others s'.
Proof.
  intros [] H. constructor;
    eauto using fifo_step, in_order_step, tasks_step, joined_step,
      sends_ok_step, no_empty_step, read_kept_step, sink_is_wire_step,
      registered_step, built_step, rested_step.
Qed.

Lemma sound_run now others ls s :
  run ls (init now others) = Some s -> sound delay self others s.
Proof.
  apply (run_invariant (sound delay self others)); [|apply sound_init].
  intros. eapply sound_step; eauto.
Qed.

End PipeFacts.

(** ** The sample run *)

Lemma sample_runs :
  Pipe.run sample_delay 7 sample_schedule (Pipe.init 7 0 [3%nat; 4%nat])
  = Some sample_final.
Proof. vm_compute. reflexivity. Qed.

Lemma sample_ends_unregistered :
  Pipe.reader sample_final = PipeThread.Done
  /\ Pipe.pipes sample_final = [3%nat; 4%nat]
  /\ Pipe.sink sample_final = [x61; x62]
  /\ Pipe.recvd sample_final = [x61; x62].
Proof. repeat split. Qed.

(** The second entry was due before the first. *)
Lemma sample_second_due_first :
  map (fun c => flt (waituntil (data c)) 0.5) (Pipe.enqueued sample_final)
  = [false; true].
Proof. vm_compute. reflexivity. Qed.

(** ** The pipe's guarantees *)

Section PipeGuarantees.

Import Pipe.

Variable delay : option Delay.t.
Variable self : nat.
Variables (now : spec_float) (others : list nat) (ls : list label) (s : state).
Hypothesis Hrun : run delay self ls (init self now others) = Some s.

Lemma enqueued_split :
  enqueued s
  = map sent (sends s) ++ PipeCleanerThread.holding (sender s) ++ backlog s.
Proof.
  destruct (sound_run _ _ _ _ _ _ Hrun) as [F O _ _ _ _ _ _ _ _ _].
  unfold fifo in F. unfold in_order in O.
  now rewrite F, O, <- app_assoc.
Qed.

Lemma sent_was_enqueued ev : In ev (sends s) -> In (sent ev) (enqueued s).
Proof.
  intro H. rewrite enqueued_split. apply in_or_app. left. now apply in_map.
Qed.

Lemma held_was_enqueued c :
  In c (PipeCleanerThread.holding (sender s)) -> In c (enqueued s).
Proof.
  intro H. rewrite enqueued_split. apply in_or_app. right.
  apply in_or_app. now left.
Qed.

Lemma drained_past_join :
  past_join (reader s) = true ->
  unfinished_tasks s = 0%nat /\ backlog s = []
  /\ PipeCleanerThread.holding (sender s) = []
  /\ sender s <> PipeCleanerThread.Dead.
Proof.
  intro P.
  destruct (sound_run _ _ _ _ _ _ Hrun) as [_ _ T J _ _ _ _ _ _ _].
  specialize (J P). unfold tasks in T. rewrite J in T.
  destruct (backlog s); [|simpl in T; lia].
  destruct (sender s); simpl in T; try lia; repeat split; congruence.
Qed.

Lemma wire_whole evs : Forall whole evs -> wire evs = bytes_of (map sent evs).
Proof.
  unfold wire, bytes_of, whole.
  induction 1 as [|ev evs W _ IH]; simpl; [reflexivity|].
  rewrite IH. unfold wired. rewrite W, firstn_all. reflexivity.
Qed.

(** X11. With every [send] taking its whole buffer, the sink holds a
    prefix of what was read, what is missing is still in the pipe, and
    nothing is missing once [join] has returned. *)
Lemma relay_faithful_when_sends_whole :
  Forall whole (sends s) ->
  recvd s = sink s ++ bytes_of (PipeCleanerThread.holding (sender s))
              ++ bytes_of (backlog s) ++ PipeThread.in_hand (reader s)
  /\ (past_join (reader s) = true -> sink s = recvd s).
Proof.
  intro W.
  destruct (sound_run _ _ _ _ _ _ Hrun) as [_ _ _ _ _ _ K S _ _ _].
  unfold read_kept in K. unfold sink_is_wire in S.
  assert (E : recvd s = sink s ++ bytes_of (PipeCleanerThread.holding (sender s))
              ++ bytes_of (backlog s) ++ PipeThread.in_hand (reader s)).
  { rewrite K, S, enqueued_split, !bytes_of_app, wire_whole by assumption.
    now rewrite <- !app_assoc. }
  split; [exact E|]. intro P.
  destruct (drained_past_join P) as (_ & B & Hd & _).
  rewrite E, B, Hd. destruct (reader s); try discriminate;
    simpl; now rewrite app_nil_r.
Qed.

End PipeGuarantees.

(** C2. The queue is first in, first out: at every moment what has been
    put is what has been got, in the same order, followed by what still
    waits, and what has been got is what has been handed to [send], in
    the same order, followed by the entry the sender holds; so the i-th
    entry got, and the i-th sent, is the i-th put, whatever the release
    times are. *)
Theorem backlog_is_fifo
    (delay : option Delay.t) (self : nat) (now : spec_float) (others : list nat)
    (ls : list Pipe.label) (s : Pipe.state) :
  Pipe.run delay self ls (Pipe.init self now others) = Some s ->
  Pipe.enqueued s = Pipe.dequeued s ++ Pipe.backlog s
  /\ Pipe.dequeued s
     = map sent (Pipe.sends s) ++ PipeCleanerThread.holding (Pipe.sender s)
  /\ (forall i c, nth_error (Pipe.dequeued s) i = Some c ->
                  nth_error (Pipe.enqueued s) i = Some c)
  /\ (forall i ev, nth_error (Pipe.sends s) i = Some ev ->
                   nth_error (Pipe.enqueued s) i = Some (sent ev)).
Proof.
  intro Hrun.
  destruct (sound_run _ _ _ _ _ _ Hrun) as [F O _ _ _ _ _ _ _ _ _].
  unfold fifo in F. unfold in_order in O.
  split; [exact F|]. split; [exact O|]. split.
  - intros i c H. rewrite F. rewrite nth_error_app1; [exact H|].
    apply nth_error_Some. congruence.
  - intros i ev H. rewrite F, O.
    assert (L : (i < List.length (Pipe.sends s))%nat)
      by (apply nth_error_Some; congruence).
    rewrite !nth_error_app1 by (rewrite ?length_app, length_map; lia).
    rewrite nth_error_map, H. reflexivity.
Qed.

Lemma backlog_is_fifo_witness :
  Pipe.enqueued sample_final
  = Pipe.dequeued sample_final ++ Pipe.backlog sample_final
  /\ Pipe.dequeued sample_final
     = map sent (Pipe.sends sample_final)
       ++ PipeCleanerThread.holding (Pipe.sender sample_final)
  /\ (forall i c, nth_error (Pipe.dequeued sample_final) i = Some c ->
                  nth_error (Pipe.enqueued sample_final) i = Some c)
  /\ (forall i ev, nth_error (Pipe.sends sample_final) i = Some ev ->
                   nth_error (Pipe.enqueued sample_final) i = Some (sent ev)).
Proof.
  apply (backlog_is_fifo sample_delay 7 0 [3%nat; 4%nat] sample_schedule).
  vm_compute. reflexivity.
Defined.

(** C5. Every entry ever put on the queue carries as release time the
    clock reading taken in its constructor plus the delay sampled from
    the draw that [random.random()] gave in that very constructor call,
    or that clock reading itself when the pipe has no policy; and the
    entry the reader builds from a read, with this clock reading and
    this draw, is the entry it puts. *)
Theorem release_is_enqueue_time_plus_sample
    (delay : option Delay.t) (self : nat) (now : spec_float) (others : list nat)
    (ls : list Pipe.label) (s : Pipe.state) :
  Pipe.run delay self ls (Pipe.init self now others) = Some s ->
  Forall (fun c =>
            match delay with
            | Some D =>
                Delay.draw_ok (drawn c) = true
                /\ waituntil (data c)
                   = fadd (builtat c) (Delay.getrandom D (drawn c))
            | None => waituntil (data c) = builtat c
            end) (Pipe.enqueued s)
  /\ (forall t b rv draw s',
        Pipe.reader s = PipeThread.Got t b ->
        Pipe.PipeThread_run delay self rv draw s = Some s' ->
        exists c, Pipe.reader s' = PipeThread.Put c
          /\ drawn c = draw /\ builtat c = Pipe.clock s
          /\ data c = BackloggedData_init b delay (Pipe.clock s) draw)
  /\ (forall c rv draw s',
        Pipe.reader s = PipeThread.Put c ->
        Pipe.PipeThread_run delay self rv draw s = Some s' ->
        Pipe.enqueued s' = Pipe.enqueued s ++ [c]).
Proof.
  intro Hrun.
  destruct (sound_run _ _ _ _ _ _ Hrun) as [_ _ _ _ _ _ _ _ _ [B _] _].
  split; [|split].
  - eapply Forall_impl; [|exact B].
    intros c (Hd & E). unfold BackloggedData_init in E.
    unfold Pipe.draw_used in Hd.
    destruct delay as [D|]; rewrite E; simpl; [|reflexivity].
    split; [exact Hd | reflexivity].
  - intros t b rv draw s' R H. unfold Pipe.PipeThread_run in H.
    rewrite R in H. destruct (Pipe.draw_used delay draw); [|discriminate].
    inversion H; subst; clear H. eexists. simpl.
    split; [reflexivity|]. repeat split.
  - intros c rv draw s' R H. unfold Pipe.PipeThread_run in H.
    rewrite R in H. inversion H; subst; clear H. reflexivity.
Qed.

Lemma release_is_enqueue_time_plus_sample_witness :
  Forall (fun c =>
            Delay.draw_ok (drawn c) = true
            /\ waituntil (data c)
               = fadd (builtat c)
                      (Delay.getrandom (Delay.init 0.1 (Some 1)) (drawn c)))
         (Pipe.enqueued sample_final)
  /\ (forall t b rv draw s',
        Pipe.reader sample_final = PipeThread.Got t b ->
        Pipe.PipeThread_run sample_delay 7 rv draw sample_final = Some s' ->
        exists c, Pipe.reader s' = PipeThread.Put c
          /\ drawn c = draw /\ builtat c = Pipe.clock sample_final
          /\ data c
             = BackloggedData_init b sample_delay (Pipe.clock sample_final) draw)
  /\ (forall c rv draw s',
        Pipe.reader sample_final = PipeThread.Put c ->
        Pipe.PipeThread_run sample_delay 7 rv draw sample_final = Some s' ->
        Pipe.enqueued s' = Pipe.enqueued sample_final ++ [c]).
Proof.
  apply (release_is_enqueue_time_plus_sample
           sample_delay 7 0 [3%nat; 4%nat] sample_schedule).
  vm_compute. reflexivity.
Defined.




(** C10. No entry with an empty payload is ever put on the queue, taken
    from it or handed to [send]. *)
Theorem no_empty_payload
    (delay : option Delay.t) (self : nat) (now : spec_float) (others : list nat)
    (ls : list Pipe.label) (s : Pipe.state) :
  Pipe.run delay self ls (Pipe.init self now others) = Some s ->
  Forall (fun c => payload (data c) <> []) (Pipe.enqueued s)
  /\ Forall (fun c => payload (data c) <> []) (Pipe.dequeued s)
  /\ Forall (fun ev => payload (data (sent ev)) <> []) (Pipe.sends s)
  /\ (forall c, Pipe.sender s = PipeCleanerThread.Send c ->
                payload (data c) <> []).
Proof.
  intro Hrun.
  pose proof (sound_run _ _ _ _ _ _ Hrun) as [F _ _ _ _ [N _] _ _ _ _ _].
  unfold fifo in F. unfold nonempty in N.
  split; [exact N|]. rewrite Forall_forall in N. split; [|split].
  - apply Forall_forall. intros c Hc. apply N. rewrite F.
    apply in_or_app. now left.
  - apply Forall_forall. intros ev Hev. apply N.
    now apply (sent_was_enqueued _ _ _ _ _ _ Hrun).
  - intros c Hc. apply N. apply (held_was_enqueued _ _ _ _ _ _ Hrun).
    rewrite Hc. now left.
Qed.

Lemma no_empty_payload_witness :
  Forall (fun c => payload (data c) <> []) (Pipe.enqueued sample_final)
  /\ Forall (fun c => payload (data c) <> []) (Pipe.dequeued sample_final)
  /\ Forall (fun ev => payload (data (sent ev)) <> []) (Pipe.sends sample_final)
  /\ (forall c, Pipe.sender sample_final = PipeCleanerThread.Send c ->
                payload (data c) <> []).
Proof.
  apply (no_empty_payload sample_delay 7 0 [3%nat; 4%nat] sample_schedule).
  vm_compute. reflexivity.
Defined.


(** C6, at the sink of C1, which takes one byte of a two-byte payload:
    the task is marked done after the short [send], [join] returns, and
    the reader unregisters although a byte of the one entry it put was
    never written. *)
Theorem unregistered_with_payload_unwritten :
  Pipe.run None 7 short_schedule (Pipe.init 7 0 []) = Some short_final
  /\ Pipe.reader short_final = PipeThread.Done
  /\ ~ In 7%nat (Pipe.pipes short_final)
  /\ Pipe.unfinished_tasks short_final = 0%nat
  /\ exists c,
       Pipe.enqueued short_final = [c]
       /\ payload (data c) = [x61; x62]
       /\ Pipe.sink short_final = [x61].
Proof.
  repeat split; [intros [] | eexists; repeat split].
Qed.

(** C1, at a sink that takes one byte of a two-byte payload: [send]
    returns 1, the count is discarded, the entry is marked done, and the
    reader finishes with the second byte never written. *)
Theorem short_send_loses_bytes :
  Pipe.run None 7 short_schedule (Pipe.init 7 0 []) = Some short_final
  /\ Pipe.reader short_final = PipeThread.Done
  /\ Pipe.backlog short_final = []
  /\ Pipe.recvd short_final = [x61; x62]
  /\ Pipe.sink short_final = [x61].
Proof. repeat split. Qed.


(** ** The accept loop *)

Section AcceptLoop.

Import LagProxy.

Lemma pairs_from_snoc (i n : nat) :
  pairs_from i (S n)
  = pairs_from i n ++ [(Local (i + n), Remote (i + n));
                       (Remote (i + n), Local (i + n))].
Proof.
  revert i. induction n as [|n IH]; intro i.
  - simpl. now rewrite Nat.add_0_r.
  - change (pairs_from i (S (S n)))
      with ((Local i, Remote i) :: (Remote i, Local i) :: pairs_from (S i) (S n)).
    rewrite IH. simpl. now rewrite Nat.add_succ_r.
Qed.

(** While every call returns the loop keeps accepting and makes and
    starts two pipes for each connection. *)
Lemma run_from_served (n i : nat) (rest : list fate) (s : state) :
  run_from i (repeat Served n ++ rest) s
  = run_from (i + n) rest
      (mk (accepted s ++ locals_from i n) (registered s ++ pairs_from i n)
          (started s ++ pairs_from i n)).
Proof.
  revert i s. induction n as [|n IH]; intros i s; simpl.
  - rewrite Nat.add_0_r, !app_nil_r. now destruct s.
  - rewrite IH. simpl. rewrite <- !app_assoc, Nat.add_succ_r. reflexivity.
Qed.

(** C4, as stated, fails: the first connect is refused, the exception
    leaves [run], and the second connection is never accepted. *)
Lemma connect_failure_stops_listener :
  snd (run [Raises Connect; Served]) = Raised
  /\ accepted (fst (run [Raises Connect; Served])) = [Local 0]
  /\ ~ In (Local 1) (accepted (fst (run [Raises Connect; Served])))
  /\ started (fst (run [Raises Connect; Served])) = [].
Proof.
  simpl. repeat split. intros [E | []]. discriminate.
Qed.

(** C4, amended. After [n] served connections a failing connect leaves
    no pipe made or started for its pair; the exception leaves [run]
    with the pair's local socket accepted, and whatever connection comes
    next is not accepted. *)
Theorem connect_failure_ends_accept_loop (n : nat) (later : list fate) :
  run (repeat Served n ++ Raises Connect :: later)
  = (mk (locals_from 0 (S n)) (pairs_from 0 n) (pairs_from 0 n), Raised).
Proof.
  unfold run. rewrite run_from_served. simpl.
  unfold locals_from. rewrite seq_S, map_app. reflexivity.
Qed.

End AcceptLoop.

(** ** The quiet flag *)

Section QuietFlag.

Import Main.

Variable py_int : String.string -> option Z.
Variable py_float : String.string -> option spec_float.

Lemma remove_first_shorter (l : list String.string) :
  existsb (String.eqb "-q") l = true ->
  S (List.length (remove_first "-q" l)) = List.length l.
Proof.
  induction l as [|y l IH]; cbn [existsb remove_first]; [discriminate|].
  destruct (String.eqb "-q" y); cbn [orb List.length]; [reflexivity|].
  intro H. now rewrite IH.
Qed.

(** The flag loop ends within as many rounds as there are arguments,
    with no flag left. *)
Lemma flag_loop_ends (fuel : nat) (f : frame) :
  (List.length (args f) <= fuel)%nat ->
  existsb (String.eqb "-q") (args (flag_loop fuel f)) = false.
Proof.
  revert f. induction fuel as [|fuel IH]; intros f H; cbn [flag_loop].
  - destruct (args f); [reflexivity | cbn [List.length] in H; lia].
  - destruct (existsb (String.eqb "-q") (args f)) eqn:E; [|exact E].
    apply IH. cbn [args]. apply remove_first_shorter in E. lia.
Qed.

(** The loop leaves its mark in the frame only. *)
Lemma flag_loop_marks_frame (fuel : nat) (f : frame) :
  existsb (String.eqb "-q") (args f) = true ->
  local_LOGGING (flag_loop (S fuel) f) = Some false.
Proof.
  intro E. cbn [flag_loop]. rewrite E.
  generalize (remove_first "-q" (args f)). clear E f.
  induction fuel as [|fuel IH]; intro l; cbn [flag_loop args local_LOGGING];
    [reflexivity|].
  destruct (existsb (String.eqb "-q") l); [apply IH | reflexivity].
Qed.

(** [main] never rebinds the module-level [LOGGING]. *)
Lemma main_keeps_globals g argv stdout :
  fst (fst (main py_int py_float g argv stdout)) = g.
Proof.
  unfold main. destruct (positional _ _ _); reflexivity.
Qed.

(** So [log] prints after [main] as it did before. *)
Lemma log_prints_after_main argv stdout m out :
  log (fst (fst (main py_int py_float module_globals argv stdout))) m out
  = out ++ [Logged m].
Proof. rewrite main_keeps_globals. reflexivity. Qed.

End QuietFlag.

(** C9, at the arguments [-q 8080 localhost 80]: the flag is found and
    removed, yet the module-level [LOGGING] is still true afterwards and
    the very next [log] call, in [LagProxy.__init__], prints. *)
Theorem quiet_flag_still_logs :
  Main.main Main.int_of_digits Main.float_of_digits Main.module_globals
    ["lagproxy.py"; "-q"; "8080"; "localhost"; "80"]%string []
  = ({| Main.LOGGING := true |},
     [Main.Logged (Main.Redirecting 8080 "localhost" 80 None)],
     Main.Config 8080 "localhost" 80 None).
Proof. vm_compute. reflexivity. Qed.


(** * Part IV: further properties *)

(** ** The delay policy, continued *)

(** X1. A maximum of zero counts as unset, like an inverted one: the
    delay is then fixed at the minimum, also where the minimum is
    negative and zero would have been the larger bound.  Any other
    maximum that is not below the minimum is kept as given. *)
Theorem maximum_kept_or_collapsed (m M : spec_float) :
  (feq M 0 = true \/ flt M m = true ->
   Delay.maxseconds (Delay.init m (Some M)) = m)
  /\ (feq M 0 = false -> flt M m = false ->
      Delay.maxseconds (Delay.init m (Some M)) = M).
Proof.
  split; [apply init_collapsed | apply init_kept].
Qed.

(** ** The command line *)

Section CommandLine.

Import Main.

Variable py_int : String.string -> option Z.
Variable py_float : String.string -> option spec_float.

Lemma filter_without_flag (l : list String.string) :
  existsb (String.eqb "-q") l = false -> filter not_flag l = l.
Proof.
  induction l as [|y l IH]; cbn [existsb filter]; [reflexivity|].
  unfold not_flag at 1. destruct (String.eqb "-q" y); cbn [orb negb];
    [discriminate|].
  intro H. now rewrite IH.
Qed.

Lemma filter_remove_first (l : list String.string) :
  filter not_flag (remove_first "-q" l) = filter not_flag l.
Proof.
  induction l as [|y l IH]; cbn [remove_first filter]; [reflexivity|].
  unfold not_flag at 2. destruct (String.eqb "-q" y) eqn:E; cbn [negb].
  - reflexivity.
  - cbn [filter]. unfold not_flag at 1. rewrite E. cbn [negb]. now rewrite IH.
Qed.

Lemma flag_loop_filters_within (fuel : nat) (f : frame) :
  (List.length (args f) <= fuel)%nat ->
  args (flag_loop fuel f) = filter not_flag (args f).
Proof.
  revert f. induction fuel as [|fuel IH]; intros f H; cbn [flag_loop].
  - destruct (args f); [reflexivity | cbn [List.length] in H; lia].
  - destruct (existsb (String.eqb "-q") (args f)) eqn:E.
    + rewrite IH; cbn [args].
      * apply filter_remove_first.
      * apply remove_first_shorter in E. lia.
    + symmetry. now apply filter_without_flag.
Qed.

(** X3. The flag loop takes out every [-q], wherever it stands and
    however often, and leaves the other arguments as they were, in
    order. *)
Theorem flag_loop_filters (f : frame) :
  args (flag_loop (List.length (args f)) f) = filter not_flag (args f).
Proof. apply flag_loop_filters_within. lia. Qed.

Lemma main_reads_positionals g argv stdout :
  main py_int py_float g argv stdout
  = match positional py_int py_float (positionals argv) with
    | Usage => (g, stdout ++ [UsageText], Usage)
    | Config localport remotehost remoteport delay =>
        (g, log g (Redirecting localport remotehost remoteport delay) stdout,
         Config localport remotehost remoteport delay)
    end.
Proof.
  unfold main, positionals.
  now rewrite (flag_loop_filters_within _
                 {| args := tl argv; local_LOGGING := None |} (Nat.le_refl _)).
Qed.

(** X4. With fewer than three arguments besides the program name and
    the quiet flags, [main] prints the usage text, logs nothing and sets
    up no proxy, whatever the arguments are. *)
Theorem too_few_arguments_print_usage g argv stdout :
  (List.length (positionals argv) < 3)%nat ->
  main py_int py_float g argv stdout = (g, stdout ++ [UsageText], Usage).
Proof.
  intro H. rewrite main_reads_positionals.
  destruct (positionals argv) as [|a0 [|a1 [|a2 rest]]]; try reflexivity.
  cbn [List.length] in H. lia.
Qed.

(** X5. A port, or a delay bound that is looked at, that is not a number
    makes [main] print the usage text and set up no proxy. *)
Theorem bad_number_prints_usage g argv stdout a0 a1 a2 rest :
  positionals argv = a0 :: a1 :: a2 :: rest ->
  py_int a0 = None \/ py_int a2 = None
  \/ (exists a3 rest', rest = a3 :: rest' /\ py_float a3 = None)
  \/ (exists a3 a4 rest', rest = a3 :: a4 :: rest' /\ py_float a4 = None) ->
  main py_int py_float g argv stdout = (g, stdout ++ [UsageText], Usage).
Proof.
  intros E H. rewrite main_reads_positionals, E. cbn [positional].
  destruct H as [H | [H | [(a3 & r & -> & H) | (a3 & a4 & r & -> & H)]]].
  - now rewrite H.
  - rewrite H. now destruct (py_int a0).
  - rewrite H. destruct (py_int a0), (py_int a2); reflexivity.
  - rewrite H. destruct (py_int a0), (py_int a2), (py_float a3); reflexivity.
Qed.

(** X6. Whatever follows the fifth positional argument is ignored. *)
Theorem arguments_past_fifth_ignored g prog args extra stdout :
  (5 <= List.length (filter not_flag args))%nat ->
  main py_int py_float g (prog :: args ++ extra) stdout
  = main py_int py_float g (prog :: args) stdout.
Proof.
  intro H. rewrite !main_reads_positionals. unfold positionals. cbn [tl].
  rewrite filter_app.
  destruct (filter not_flag args) as [|a0 [|a1 [|a2 [|a3 [|a4 rest]]]]];
    cbn [List.length] in H; try lia.
  reflexivity.
Qed.

(** X7. A proxy set up by [main] has no delay exactly when there are
    three positional arguments; with more, the minimum of its delay is
    what [float] made of the fourth, stored as given, and with exactly
    four the delay is fixed at it. *)
Theorem main_delay_from_arguments g argv stdout localport remotehost remoteport delay :
  snd (main py_int py_float g argv stdout)
  = Config localport remotehost remoteport delay ->
  match delay with
  | None => List.length (positionals argv) = 3%nat
  | Some D =>
      (3 < List.length (positionals argv))%nat
      /\ exists a3 delaymin,
           nth_error (positionals argv) 3 = Some a3
           /\ py_float a3 = Some delaymin
           /\ Delay.minseconds D = delaymin
           /\ (List.length (positionals argv) = 4%nat ->
               Delay.maxseconds D = delaymin)
  end.
Proof.
  rewrite main_reads_positionals.
  destruct (positionals argv) as [|a0 [|a1 [|a2 rest]]]; cbn [positional snd];
    try discriminate.
  destruct (py_int a0), (py_int a2); cbn [snd]; try discriminate.
  destruct rest as [|a3 rest]; cbn [snd].
  - intro E. inversion E; subst. reflexivity.
  - destruct (py_float a3) as [delaymin|] eqn:F; cbn [snd]; [|discriminate].
    destruct rest as [|a4 rest]; cbn [snd].
    + intro E. inversion E; subst.
      split; [cbn [List.length]; lia|].
      exists a3, delaymin. repeat split; assumption.
    + destruct (py_float a4); cbn [snd]; [|discriminate].
      intro E. inversion E; subst.
      split; [cbn [List.length]; lia|].
      exists a3, delaymin. repeat split; try assumption.
      cbn [List.length]. discriminate.
Qed.

(** X20. The quiet flag changes nothing that [main] does: with the
    flags taken out of the command line beforehand, [main] prints the
    same, leaves the same globals and sets up the same proxy. *)
Theorem quiet_flag_changes_nothing g prog args stdout :
  main py_int py_float g (prog :: args) stdout
  = main py_int py_float g (prog :: filter not_flag args) stdout.
Proof.
  rewrite !main_reads_positionals. unfold positionals. cbn [tl].
  assert (E : filter not_flag (filter not_flag args) = filter not_flag args).
  { induction args as [|a l IH]; cbn [filter]; [reflexivity|].
    destruct (not_flag a) eqn:N; [|exact IH].
    cbn [filter]. now rewrite N, IH. }
  now rewrite E.
Qed.

End CommandLine.

Lemma too_few_arguments_print_usage_witness :
  Main.main Main.int_of_digits Main.float_of_digits Main.module_globals
    ["lagproxy.py"; "-q"; "8080"; "-q"]%string []
  = (Main.module_globals, [] ++ [Main.UsageText], Main.Usage).
Proof.
  apply (too_few_arguments_print_usage Main.int_of_digits Main.float_of_digits).
  vm_compute. lia.
Defined.

Lemma bad_number_prints_usage_witness :
  Main.main Main.int_of_digits Main.float_of_digits Main.module_globals
    ["lagproxy.py"; "8080"; "localhost"; "http"]%string []
  = (Main.module_globals, [] ++ [Main.UsageText], Main.Usage).
Proof.
  apply (bad_number_prints_usage Main.int_of_digits Main.float_of_digits
           Main.module_globals
           ["lagproxy.py"; "8080"; "localhost"; "http"]%string []
           "8080"%string "localhost"%string "http"%string []).
  - reflexivity.
  - right. left. reflexivity.
Defined.

Lemma arguments_past_fifth_ignored_witness :
  Main.main Main.int_of_digits Main.float_of_digits Main.module_globals
    ("lagproxy.py" :: ["8080"; "localhost"; "80"; "1"; "2"] ++ ["3"; "x"])%string []
  = Main.main Main.int_of_digits Main.float_of_digits Main.module_globals
      ("lagproxy.py" :: ["8080"; "localhost"; "80"; "1"; "2"])%string [].
Proof.
  apply (arguments_past_fifth_ignored Main.int_of_digits Main.float_of_digits).
  vm_compute. lia.
Defined.

Lemma main_delay_from_arguments_witness :
  (3 < List.length
         (positionals ["lagproxy.py"; "8080"; "localhost"; "80"; "3"]%string))%nat
  /\ exists a3 delaymin,
       nth_error
         (positionals ["lagproxy.py"; "8080"; "localhost"; "80"; "3"]%string) 3
       = Some a3
       /\ Main.float_of_digits a3 = Some delaymin
       /\ Delay.minseconds (Delay.init 3 None) = delaymin
       /\ (List.length
             (positionals ["lagproxy.py"; "8080"; "localhost"; "80"; "3"]%string)
           = 4%nat ->
           Delay.maxseconds (Delay.init 3 None) = delaymin).
Proof.
  apply (main_delay_from_arguments Main.int_of_digits Main.float_of_digits
           Main.module_globals
           ["lagproxy.py"; "8080"; "localhost"; "80"; "3"]%string []
           8080%Z "localhost"%string 80%Z (Some (Delay.init 3 None))).
  vm_compute. reflexivity.
Defined.

(** ** The pipe, continued *)

(** Case analysis on one step of the pipe. *)
Ltac pipe_cases H :=
  unfold Pipe.step, Pipe.PipeThread_run, Pipe.PipeCleanerThread_run,
    Pipe.sleep_raises, Pipe.reader_raises in H;
  simpl in H;
  repeat match type of H with
         | context [match ?x with _ => _ end] => destruct x eqn:?; simpl in H
         end;
  try discriminate; inversion H; subst; clear H; simpl in *.

Section PipeFurther.

Import Pipe.

Variable delay : option Delay.t.
Variable self : nat.

Lemma started_step l s s' :
  started s -> step delay self l s = Some s' -> started s'.
Proof.
  unfold started. destruct s; simpl. intros I H.
  destruct reader0 eqn:R; pipe_cases H; intros N N'; try congruence;
    try (apply I; congruence).
Qed.

Lemma sleep_arg_fine_step l s s' :
  sleep_arg_fine s -> step delay self l s = Some s' -> sleep_arg_fine s'.
Proof.
  unfold sleep_arg_fine. destruct s; simpl. intros I H.
  destruct sender0 eqn:R; pipe_cases H; try exact Logic.I; try assumption.
  apply max0_nonneg.
Qed.

Lemma recv_ok_length (b : list byte) :
  recv_ok (RecvBytes b) = true -> (List.length b <= 1024)%nat.
Proof. unfold recv_ok. apply Nat.leb_le. Qed.

Lemma all_sized_step l s s' :
  all_sized s -> step delay self l s = Some s' -> all_sized s'.
Proof.
  unfold all_sized, sized. destruct s; simpl. intros [I J] H.
  destruct l as [dt | rv draw | sr | |].
  - pipe_cases H. split; assumption.
  - unfold step, PipeThread_run in H. cbn [reader] in H.
    destruct reader0 eqn:R.
    + pipe_cases H; split; first [assumption | exact Logic.I].
    + destruct (recv_ok rv) eqn:E; [|discriminate].
      destruct rv as [[|b0 b]|]; inversion H; subst; clear H; cbn [enqueued reader];
        (split; [assumption|]); try exact Logic.I.
      apply recv_ok_length in E. cbn [List.length] in *. lia.
    + pipe_cases H. split; [assumption|]. simpl. now rewrite payload_init.
    + pipe_cases H. split; [|exact Logic.I]. apply Forall_app.
      split; [assumption|]. constructor; [assumption | constructor].
    + pipe_cases H; split; first [assumption | exact Logic.I].
    + pipe_cases H; split; first [assumption | exact Logic.I].
    + pipe_cases H; split; first [assumption | exact Logic.I].
    + pipe_cases H; split; first [assumption | exact Logic.I].
    + pipe_cases H.
    + pipe_cases H.
    + pipe_cases H.
    + pipe_cases H.
    + pipe_cases H.
  - pipe_cases H; split; assumption.
  - pipe_cases H; split; assumption.
  - destruct reader0 eqn:R; pipe_cases H; split;
      first [assumption | exact Logic.I].
Qed.

Lemma died_sending_step l s s' :
  tasks s -> died_sending s -> step delay self l s = Some s' -> died_sending s'.
Proof.
  unfold tasks, died_sending. destruct s; simpl. intros T I H.
  destruct sender0 eqn:R; pipe_cases H; intro N; try discriminate;
    try (now apply I); try lia.
  eexists. split; [apply in_or_app; right; left; reflexivity | reflexivity].
Qed.

(** The further invariants hold after every schedule. *)
Lemma further_run now others ls s :
  run delay self ls (init self now others) = Some s ->
  started s /\ sleep_arg_fine s /\ all_sized s /\ died_sending s.
Proof.
  intro Hrun.
  assert (G : sound delay self others s
              /\ started s /\ sleep_arg_fine s /\ all_sized s
              /\ died_sending s).
  { revert Hrun.
    apply (run_invariant delay self
             (fun s => sound delay self others s
                       /\ started s /\ sleep_arg_fine s /\ all_sized s
                       /\ died_sending s)).
    - intros l s0 s1 (S0 & A & B & C & E) H.
      split; [eapply sound_step; eauto|].
      split; [eapply started_step; eauto|].
      split; [eapply sleep_arg_fine_step; eauto|].
      split; [eapply all_sized_step; eauto|].
      eapply died_sending_step; eauto; apply S0.
    - split; [apply sound_init|].
      split; [intros N _; now contradiction N|].
      split; [exact I|].
      split; [split; [constructor | exact I]|].
      discriminate. }
  tauto.
Qed.

End PipeFurther.

(** X8. [time.sleep] is never called with a negative number, not even
    for an entry that is already overdue or whose delay is negative. *)
Theorem sleep_never_negative
    (delay : option Delay.t) (self : nat) (now : spec_float) (others : list nat)
    (ls : list Pipe.label) (s : Pipe.state) :
  Pipe.run delay self ls (Pipe.init self now others) = Some s ->
  forall c secs, Pipe.sender s = PipeCleanerThread.Sleep c secs ->
                 fle 0 secs = true.
Proof.
  intros Hrun c secs E.
  destruct (further_run _ _ _ _ _ _ Hrun) as (_ & A & _).
  unfold sleep_arg_fine in A. now rewrite E in A.
Qed.

Lemma sleep_never_negative_witness :
  (exists c, Pipe.sender overdue_state = PipeCleanerThread.Sleep c 0
             /\ flt (waituntil (data c)) (builtat c) = true)
  /\ forall c secs,
       Pipe.sender overdue_state = PipeCleanerThread.Sleep c secs ->
       fle 0 secs = true.
Proof.
  split; [eexists; split; [reflexivity | vm_compute; reflexivity]|].
  apply (sleep_never_negative (Some (Delay.init (-1) None)) 7 0 []
           overdue_schedule).
  vm_compute. reflexivity.
Defined.

(** X10. Every entry ever put on the queue carries between 1 and 1024
    bytes. *)
Theorem payload_is_one_read
    (delay : option Delay.t) (self : nat) (now : spec_float) (others : list nat)
    (ls : list Pipe.label) (s : Pipe.state) :
  Pipe.run delay self ls (Pipe.init self now others) = Some s ->
  Forall (fun c => (1 <= List.length (payload (data c)) <= 1024)%nat)
         (Pipe.enqueued s).
Proof.
  intro Hrun.
  destruct (further_run _ _ _ _ _ _ Hrun) as (_ & _ & [A _] & _).
  exact A.
Qed.

Lemma payload_is_one_read_witness :
  Forall (fun c => (1 <= List.length (payload (data c)) <= 1024)%nat)
         (Pipe.enqueued sample_final).
Proof.
  apply (payload_is_one_read sample_delay 7 0 [3%nat; 4%nat] sample_schedule).
  vm_compute. reflexivity.
Defined.

Lemma relay_faithful_when_sends_whole_witness :
  Pipe.recvd sample_final
  = Pipe.sink sample_final
    ++ bytes_of (PipeCleanerThread.holding (Pipe.sender sample_final))
    ++ bytes_of (Pipe.backlog sample_final)
    ++ PipeThread.in_hand (Pipe.reader sample_final)
  /\ (past_join (Pipe.reader sample_final) = true ->
      Pipe.sink sample_final = Pipe.recvd sample_final).
Proof.
  apply (relay_faithful_when_sends_whole
           sample_delay 7 0 [3%nat; 4%nat] sample_schedule).
  - vm_compute. reflexivity.
  - repeat constructor.
Defined.

Lemma wire_length (evs : list send_event) :
  (List.length (wire evs) <= List.length (bytes_of (map sent evs)))%nat.
Proof.
  unfold wire, bytes_of.
  induction evs as [|ev evs IH]; cbn [map List.concat]; [apply Nat.le_refl|].
  rewrite !length_app. unfold wired at 1.
  destruct (result ev) as [n|].
  - rewrite length_firstn. lia.
  - cbn [List.length]. lia.
Qed.

(** X12. Whatever the sink takes of each [send], it never holds more
    bytes than the source has given. *)
Theorem sink_never_ahead
    (delay : option Delay.t) (self : nat) (now : spec_float) (others : list nat)
    (ls : list Pipe.label) (s : Pipe.state) :
  Pipe.run delay self ls (Pipe.init self now others) = Some s ->
  (List.length (Pipe.sink s) <= List.length (Pipe.recvd s))%nat.
Proof.
  intro Hrun.
  destruct (sound_run _ _ _ _ _ _ Hrun) as [_ _ _ _ _ _ K S _ _ _].
  unfold read_kept in K. unfold sink_is_wire in S.
  rewrite K, S, (enqueued_split _ _ _ _ _ _ Hrun), !bytes_of_app, !length_app.
  pose proof (wire_length (Pipe.sends s)). lia.
Qed.

Lemma sink_never_ahead_witness :
  (List.length (Pipe.sink short_final) <= List.length (Pipe.recvd short_final))%nat.
Proof.
  apply (sink_never_ahead None 7 0 [] short_schedule).
  vm_compute. reflexivity.
Defined.

Section PipeEndings.

Import Pipe.

Variable delay : option Delay.t.
Variable self : nat.

Lemma dead_stays_dead ls s s' :
  sender s = PipeCleanerThread.Dead ->
  run delay self ls s = Some s' -> sender s' = PipeCleanerThread.Dead.
Proof.
  intro D. revert D.
  apply (run_invariant delay self
           (fun s => sender s = PipeCleanerThread.Dead)).
  intros l s0 s1 D H. destruct s0; simpl in D. subst.
  pipe_cases H; reflexivity.
Qed.

End PipeEndings.

(** X13. Once a [send] has raised, the sender thread is gone for good,
    the task it held is never marked done, and so the reader never gets
    past [join]: the pipe stays in the registry whatever happens next. *)
Theorem failed_send_blocks_reader
    (delay : option Delay.t) (self : nat) (now : spec_float) (others : list nat)
    (ls : list Pipe.label) (s : Pipe.state) :
  Pipe.run delay self ls (Pipe.init self now others) = Some s ->
  Pipe.sender s = PipeCleanerThread.Dead ->
  (exists ev, In ev (Pipe.sends s) /\ result ev = SendError)
  /\ forall ls' s', Pipe.run delay self ls' s = Some s' ->
       Pipe.sender s' = PipeCleanerThread.Dead
       /\ (1 <= Pipe.unfinished_tasks s')%nat
       /\ past_join (Pipe.reader s') = false
       /\ Pipe.pipes s' = others ++ [self].
Proof.
  intros Hrun D. split.
  - destruct (further_run _ _ _ _ _ _ Hrun) as (_ & _ & _ & F).
    now apply F.
  - intros ls' s' Hrun'.
    pose proof (dead_stays_dead _ _ _ _ _ D Hrun') as D'.
    assert (R : Pipe.run delay self (ls ++ ls') (Pipe.init self now others)
                = Some s') by (now rewrite run_app, Hrun).
    destruct (sound_run _ _ _ _ _ _ R) as [_ _ T J _ _ _ _ G _ _].
    unfold tasks in T. rewrite D' in T. simpl in T.
    assert (P : past_join (Pipe.reader s') = false).
    { destruct (past_join (Pipe.reader s')) eqn:P; [|reflexivity].
      specialize (J P). lia. }
    repeat split; try assumption; try lia.
    unfold registered in G.
    destruct (Pipe.reader s'); try tauto; discriminate.
Qed.

Lemma failed_send_blocks_reader_witness :
  (exists ev, In ev (Pipe.sends broken_state) /\ result ev = SendError)
  /\ forall ls' s', Pipe.run None 7 ls' broken_state = Some s' ->
       Pipe.sender s' = PipeCleanerThread.Dead
       /\ (1 <= Pipe.unfinished_tasks s')%nat
       /\ past_join (Pipe.reader s') = false
       /\ Pipe.pipes s' = [3%nat] ++ [7%nat].
Proof.
  apply (failed_send_blocks_reader None 7 0 [3%nat] broken_schedule).
  - vm_compute. reflexivity.
  - reflexivity.
Defined.

Lemma sender_in_get_when_done
    (delay : option Delay.t) (self : nat) (now : spec_float) (others : list nat)
    (ls : list Pipe.label) (s : Pipe.state) :
  Pipe.run delay self ls (Pipe.init self now others) = Some s ->
  Pipe.reader s = PipeThread.Done ->
  Pipe.sender s = PipeCleanerThread.Get /\ Pipe.backlog s = [].
Proof.
  intros Hrun R.
  assert (P : past_join (Pipe.reader s) = true) by now rewrite R.
  destruct (drained_past_join _ _ _ _ _ _ Hrun P) as (U & B & _ & _).
  destruct (sound_run _ _ _ _ _ _ Hrun) as [_ _ T _ _ _ _ _ _ _ _].
  destruct (further_run _ _ _ _ _ _ Hrun) as (St & _).
  unfold tasks in T. rewrite U, B in T. simpl in T.
  split; [|exact B].
  unfold started in St. rewrite R in St.
  destruct (Pipe.sender s); simpl in T; try lia; [|reflexivity].
  exfalso. now apply St.
Qed.

(** X14. The sender thread never returns: when the reader is done the
    sender is blocked in [backlog.get] on an empty queue, and neither
    thread can make another call. *)
Theorem sender_parked_for_good
    (delay : option Delay.t) (self : nat) (now : spec_float) (others : list nat)
    (ls : list Pipe.label) (s : Pipe.state) :
  Pipe.run delay self ls (Pipe.init self now others) = Some s ->
  Pipe.reader s = PipeThread.Done ->
  Pipe.sender s = PipeCleanerThread.Get
  /\ Pipe.backlog s = []
  /\ forall rv draw sr,
       Pipe.PipeThread_run delay self rv draw s = None
       /\ Pipe.PipeCleanerThread_run sr s = None.
Proof.
  intros Hrun R.
  destruct (sender_in_get_when_done _ _ _ _ _ _ Hrun R) as [G B].
  split; [exact G|]. split; [exact B|]. intros rv draw sr.
  unfold Pipe.PipeThread_run, Pipe.PipeCleanerThread_run.
  now rewrite R, G, B.
Qed.

Lemma sender_parked_for_good_witness :
  Pipe.sender sample_final = PipeCleanerThread.Get
  /\ Pipe.backlog sample_final = []
  /\ forall rv draw sr,
       Pipe.PipeThread_run sample_delay 7 rv draw sample_final = None
       /\ Pipe.PipeCleanerThread_run sr sample_final = None.
Proof.
  apply (sender_parked_for_good sample_delay 7 0 [3%nat; 4%nat] sample_schedule).
  - vm_compute. reflexivity.
  - reflexivity.
Defined.

(** X16. Three calls of the two threads find what they need: the
    cleaner thread is started once, before anything else, so [start()]
    meets a thread not yet started; [pipes.remove(self)] finds the pipe
    in the registry; and [task_done] is called only with a task
    unfinished. *)
Theorem start_remove_task_done_find_their_object
    (delay : option Delay.t) (self : nat) (now : spec_float) (others : list nat)
    (ls : list Pipe.label) (s : Pipe.state) :
  Pipe.run delay self ls (Pipe.init self now others) = Some s ->
  (Pipe.reader s = PipeThread.Start ->
   Pipe.sender s = PipeCleanerThread.NotStarted)
  /\ (Pipe.reader s = PipeThread.Remove ->
      list_remove self (Pipe.pipes s) <> None)
  /\ (forall c, Pipe.sender s = PipeCleanerThread.TaskDone c ->
                (1 <= Pipe.unfinished_tasks s)%nat).
Proof.
  intro Hrun.
  destruct (sound_run _ _ _ _ _ _ Hrun) as [_ _ T _ _ _ _ _ G _ _].
  unfold registered in G. unfold tasks in T.
  split; [|split].
  - intro R. rewrite R in G. apply G.
  - intro R. rewrite R in G. rewrite G. apply list_remove_last.
  - intros c E. rewrite E in T. simpl in T. lia.
Qed.

Lemma start_remove_task_done_find_their_object_witness :
  (exists c, Pipe.sender marking_state = PipeCleanerThread.TaskDone c)
  /\ (Pipe.reader marking_state = PipeThread.Start ->
      Pipe.sender marking_state = PipeCleanerThread.NotStarted)
  /\ (Pipe.reader marking_state = PipeThread.Remove ->
      list_remove 7 (Pipe.pipes marking_state) <> None)
  /\ (forall c, Pipe.sender marking_state = PipeCleanerThread.TaskDone c ->
                (1 <= Pipe.unfinished_tasks marking_state)%nat).
Proof.
  split; [eexists; reflexivity|].
  apply (start_remove_task_done_find_their_object None 7 0 []
           (firstn 11 short_schedule)).
  vm_compute. reflexivity.
Defined.

(** X21. The reader shuts down in order.  In [recv] every answer is
    taken, and the loop is left, for the [log] call that follows it,
    exactly on an empty read or a [recv] that raised.  When that [log]
    returns the reader is in [backlog.join()], which returns exactly
    when no task is unfinished and leaves the registry alone.  Until
    [pipes.remove(self)] the pipe is in the registry, and that call
    takes one entry for it out.  Once [join] has returned the queue is
    empty, the sender holds nothing, and every entry ever put has been
    handed to a [send] that returned, with whatever count. *)
Theorem reader_shuts_down_in_order
    (delay : option Delay.t) (self : nat) (now : spec_float) (others : list nat)
    (ls : list Pipe.label) (s : Pipe.state) :
  Pipe.run delay self ls (Pipe.init self now others) = Some s ->
  (Pipe.reader s = PipeThread.Recv ->
   forall rv draw, Pipe.recv_ok rv = true ->
     exists s', Pipe.step delay self (Pipe.StepReader rv draw) s = Some s'
       /\ match rv with
          | RecvBytes [] | RecvError => Pipe.reader s' = PipeThread.Terminating
          | RecvBytes b => Pipe.reader s' = PipeThread.Got (Pipe.clock s) b
          end)
  /\ (forall l s', Pipe.step delay self l s = Some s' ->
        Pipe.reader s' = PipeThread.Terminating ->
        Pipe.reader s = PipeThread.Terminating
        \/ (Pipe.reader s = PipeThread.Recv
            /\ exists rv draw, l = Pipe.StepReader rv draw
                 /\ (rv = RecvBytes [] \/ rv = RecvError)))
  /\ (Pipe.reader s = PipeThread.Terminating ->
      forall rv draw,
        exists s', Pipe.step delay self (Pipe.StepReader rv draw) s = Some s'
          /\ Pipe.reader s' = PipeThread.Join
          /\ Pipe.pipes s' = Pipe.pipes s)
  /\ (Pipe.reader s = PipeThread.Join ->
      forall rv draw,
        match Pipe.unfinished_tasks s with
        | O => exists s',
                 Pipe.step delay self (Pipe.StepReader rv draw) s = Some s'
                 /\ Pipe.reader s' = PipeThread.Remove
                 /\ Pipe.pipes s' = Pipe.pipes s
        | S _ => Pipe.step delay self (Pipe.StepReader rv draw) s = None
        end)
  /\ (Pipe.reader s = PipeThread.Remove ->
      forall rv draw,
        exists s', Pipe.step delay self (Pipe.StepReader rv draw) s = Some s'
          /\ Pipe.reader s' = PipeThread.Removed
          /\ list_remove self (Pipe.pipes s) = Some (Pipe.pipes s'))
  /\ (past_join (Pipe.reader s) = false ->
      Pipe.reader s <> PipeThread.Crashed /\ In self (Pipe.pipes s))
  /\ (Pipe.reader s = PipeThread.Remove -> In self (Pipe.pipes s))
  /\ (past_join (Pipe.reader s) = true ->
      Pipe.backlog s = []
      /\ PipeCleanerThread.holding (Pipe.sender s) = []
      /\ Pipe.enqueued s = map sent (Pipe.sends s)
      /\ forallb took (Pipe.sends s) = true).
Proof.
  intro Hrun.
  pose proof (sound_run _ _ _ _ _ _ Hrun) as [_ _ _ _ K _ _ _ G _ _].
  unfold registered in G. unfold sends_ok in K.
  assert (M : In self (others ++ [self]))
    by (apply in_or_app; right; left; reflexivity).
  split; [|split; [|split; [|split; [|split; [|split; [|split]]]]]].
  - intros R rv draw V. unfold Pipe.step, Pipe.PipeThread_run.
    rewrite R, V. destruct rv as [[|b0 b]|]; eexists; split; reflexivity.
  - intros l s' H T. clear G K Hrun.
    destruct s as [ck rd sd bl ut pp sk lk rc en de se sl]; simpl in *.
    destruct rd eqn:R; pipe_cases H; try discriminate;
      first [ now left
            | right; split; [reflexivity|]; do 2 eexists;
              split; [reflexivity|]; first [now left | now right] ].
  - intros R rv draw. unfold Pipe.step, Pipe.PipeThread_run. rewrite R.
    eexists. repeat split.
  - intros R rv draw. unfold Pipe.step, Pipe.PipeThread_run. rewrite R.
    destruct (Pipe.unfinished_tasks s); [|reflexivity].
    eexists. repeat split.
  - intros R rv draw. rewrite R in G.
    unfold Pipe.step, Pipe.PipeThread_run. rewrite R.
    destruct (list_remove self (Pipe.pipes s)) as [ps|] eqn:E.
    + eexists. repeat split.
    + exfalso. rewrite G in E. revert E. apply list_remove_last.
  - intro P. destruct (Pipe.reader s); try discriminate; try contradiction;
      (split; [discriminate|]); try (now rewrite G).
    destruct G as [_ G]. now rewrite G.
  - intro R. rewrite R in G. now rewrite G.
  - intro P.
    destruct (drained_past_join _ _ _ _ _ _ Hrun P) as (_ & B & Hd & Nd).
    repeat split; try assumption.
    + rewrite (enqueued_split _ _ _ _ _ _ Hrun), B, Hd, !app_nil_r. reflexivity.
    + now apply K.
Qed.

Lemma reader_shuts_down_in_order_witness :
  (Pipe.reader drained_state = PipeThread.Join
   /\ Pipe.unfinished_tasks drained_state = 0%nat)
  /\ (Pipe.reader drained_state = PipeThread.Recv ->
      forall rv draw, Pipe.recv_ok rv = true ->
        exists s', Pipe.step None 7 (Pipe.StepReader rv draw) drained_state = Some s'
          /\ match rv with
             | RecvBytes [] | RecvError => Pipe.reader s' = PipeThread.Terminating
             | RecvBytes b => Pipe.reader s' = PipeThread.Got (Pipe.clock drained_state) b
             end)
  /\ (forall l s', Pipe.step None 7 l drained_state = Some s' ->
        Pipe.reader s' = PipeThread.Terminating ->
        Pipe.reader drained_state = PipeThread.Terminating
        \/ (Pipe.reader drained_state = PipeThread.Recv
            /\ exists rv draw, l = Pipe.StepReader rv draw
                 /\ (rv = RecvBytes [] \/ rv = RecvError)))
  /\ (Pipe.reader drained_state = PipeThread.Terminating ->
      forall rv draw,
        exists s', Pipe.step None 7 (Pipe.StepReader rv draw) drained_state = Some s'
          /\ Pipe.reader s' = PipeThread.Join
          /\ Pipe.pipes s' = Pipe.pipes drained_state)
  /\ (Pipe.reader drained_state = PipeThread.Join ->
      forall rv draw,
        match Pipe.unfinished_tasks drained_state with
        | O => exists s',
                 Pipe.step None 7 (Pipe.StepReader rv draw) drained_state = Some s'
                 /\ Pipe.reader s' = PipeThread.Remove
                 /\ Pipe.pipes s' = Pipe.pipes drained_state
        | S _ => Pipe.step None 7 (Pipe.StepReader rv draw) drained_state = None
        end)
  /\ (Pipe.reader drained_state = PipeThread.Remove ->
      forall rv draw,
        exists s', Pipe.step None 7 (Pipe.StepReader rv draw) drained_state = Some s'
          /\ Pipe.reader s' = PipeThread.Removed
          /\ list_remove 7 (Pipe.pipes drained_state) = Some (Pipe.pipes s'))
  /\ (past_join (Pipe.reader drained_state) = false ->
      Pipe.reader drained_state <> PipeThread.Crashed
      /\ In 7%nat (Pipe.pipes drained_state))
  /\ (Pipe.reader drained_state = PipeThread.Remove ->
      In 7%nat (Pipe.pipes drained_state))
  /\ (past_join (Pipe.reader drained_state) = true ->
      Pipe.backlog drained_state = []
      /\ PipeCleanerThread.holding (Pipe.sender drained_state) = []
      /\ Pipe.enqueued drained_state = map sent (Pipe.sends drained_state)
      /\ forallb took (Pipe.sends drained_state) = true).
Proof.
  split; [split; reflexivity|].
  apply (reader_shuts_down_in_order None 7 0 [] (firstn 12 short_schedule)).
  vm_compute. reflexivity.
Defined.

(** ** The accept loop, continued *)

Section AcceptLoopPairs.

Import LagProxy.

Lemma all_served_repeat (fates : list fate) :
  all_served fates = true -> fates = repeat Served (List.length fates).
Proof.
  induction fates as [|f fates IH]; simpl; [reflexivity|].
  destruct f; [|discriminate]. intro H. now rewrite <- IH.
Qed.

(** More sockets accepted and more pipes made keep the pairing. *)
Lemma paired_grows (s : state) (socks : list sock) (made : list (sock * sock)) :
  paired s ->
  paired (mk (accepted s ++ socks) (registered s ++ made) (started s)).
Proof.
  intros P a b H. destruct (P a b H) as (R & i & A & D).
  split; [apply in_or_app; now left|].
  exists i. split; [apply in_or_app; now left | exact D].
Qed.

(** Starting the pipe from the local side of an accepted connection. *)
Lemma paired_first (s : state) (i : nat) :
  paired s -> In (Local i) (accepted s) ->
  In (Local i, Remote i) (registered s) ->
  paired (mk (accepted s) (registered s) (started s ++ [(Local i, Remote i)])).
Proof.
  intros P A R a b H. cbn [accepted registered started] in *.
  apply in_app_or in H. destruct H as [H | [H | []]].
  - destruct (P a b H) as (R' & j & A' & D).
    split; [exact R'|]. exists j. split; [exact A'|].
    destruct D as [D | [D D']]; [now left|].
    right. split; [exact D|]. apply in_or_app. now left.
  - inversion H; subst. split; [exact R|]. exists i. split; [exact A | now left].
Qed.

(** Starting the pipe from the remote side, the other one running. *)
Lemma paired_second (s : state) (i : nat) :
  paired s -> In (Local i) (accepted s) ->
  In (Remote i, Local i) (registered s) ->
  In (Local i, Remote i) (started s) ->
  paired (mk (accepted s) (registered s) (started s ++ [(Remote i, Local i)])).
Proof.
  intros P A R F a b H. cbn [accepted registered started] in *.
  apply in_app_or in H. destruct H as [H | [H | []]].
  - destruct (P a b H) as (R' & j & A' & D).
    split; [exact R'|]. exists j. split; [exact A'|].
    destruct D as [D | [D D']]; [now left|].
    right. split; [exact D|]. apply in_or_app. now left.
  - inversion H; subst. split; [exact R|]. exists i. split; [exact A|].
    right. split; [reflexivity|]. apply in_or_app. now left.
Qed.

Lemma in_last {A : Type} (l : list A) (x : A) : In x (l ++ [x]).
Proof. apply in_or_app. right. now left. Qed.

Lemma run_from_paired (fates : list fate) :
  forall i s, paired s -> paired (fst (run_from i fates s)).
Proof.
  induction fates as [|f fates IH]; intros i s P; [exact P|].
  pose proof (paired_grows s [Local i] [] P) as P1.
  rewrite app_nil_r in P1.
  assert (A1 : In (Local i) (accepted s ++ [Local i])) by apply in_last.
  pose proof (paired_grows _ [] [(Local i, Remote i)] P1) as P2.
  cbn [accepted registered started] in P2. rewrite app_nil_r in P2.
  pose proof (paired_first _ i P2 A1 (in_last _ _)) as P3.
  cbn [accepted registered started] in P3.
  pose proof (paired_grows _ [] [(Remote i, Local i)] P3) as P4.
  cbn [accepted registered started] in P4. rewrite app_nil_r in P4.
  pose proof (paired_second _ i P4 A1 (in_last _ _) (in_last _ _)) as P5.
  cbn [accepted registered started] in P5.
  cbn [run_from].
  destruct (returns f Accept); cbn [negb]; [|exact P].
  destruct (returns f Connect); cbn [negb]; [|exact P1].
  destruct (returns f FirstPeername); cbn [negb]; [|exact P1].
  destruct (returns f FirstStart); cbn [negb]; [|exact P2].
  destruct (returns f SecondPeername); cbn [negb]; [|exact P3].
  destruct (returns f SecondStart); cbn [negb]; [|exact P4].
  apply IH. exact P5.
Qed.

End AcceptLoopPairs.

(** X18. As long as every call of the loop returns, every inbound
    connection is accepted and gets its two pipes made and started, one
    in each direction, in accept order, and the loop goes on
    accepting. *)
Theorem every_connection_gets_two_pipes (fates : list LagProxy.fate) :
  all_served fates = true ->
  LagProxy.run fates
  = (LagProxy.mk (LagProxy.locals_from 0 (List.length fates))
                 (LagProxy.pairs_from 0 (List.length fates))
                 (LagProxy.pairs_from 0 (List.length fates)),
     LagProxy.Accepting).
Proof.
  intro H. rewrite (all_served_repeat fates H) at 1.
  unfold LagProxy.run.
  rewrite <- (app_nil_r (repeat LagProxy.Served (List.length fates))).
  rewrite run_from_served. reflexivity.
Qed.

Lemma every_connection_gets_two_pipes_witness :
  LagProxy.run [LagProxy.Served; LagProxy.Served]
  = (LagProxy.mk [LagProxy.Local 0; LagProxy.Local 1]
       [(LagProxy.Local 0, LagProxy.Remote 0); (LagProxy.Remote 0, LagProxy.Local 0);
        (LagProxy.Local 1, LagProxy.Remote 1); (LagProxy.Remote 1, LagProxy.Local 1)]
       [(LagProxy.Local 0, LagProxy.Remote 0); (LagProxy.Remote 0, LagProxy.Local 0);
        (LagProxy.Local 1, LagProxy.Remote 1); (LagProxy.Remote 1, LagProxy.Local 1)],
     LagProxy.Accepting).
Proof.
  apply (every_connection_gets_two_pipes [LagProxy.Served; LagProxy.Served]).
  reflexivity.
Defined.

(** X19. Whichever call raises and wherever the loop stops, every pipe
    it has started was made first and joins the two sockets of one
    accepted connection, never sockets of two; and the pipe from the
    remote side is started only after the one from the local side. *)
Theorem pipes_never_cross_connections (fates : list LagProxy.fate) :
  paired (fst (LagProxy.run fates)).
Proof.
  apply run_from_paired. intros a b [].
Qed.
